(** * fabricator-assemble: collection assembly and context namespacing

    A shallow embedding of [src/index.js] and the properties of its
    collection builder, fragment namespacer, context builder, output
    resolver, [material] helper and error handler.

    Conventions of the embedding:
    - JavaScript strings are [string]s; the character classes of the regular
      expressions are modelled on ASCII.
    - JavaScript objects whose key order is observable (front matter, the
      materials tree) are association lists in insertion order; objects that
      are only read by key (render contexts, the partial registry, the
      destination map) are [gmap string _].
    - The external collaborators (globbing, front-matter reading, Markdown,
      the template engine) are arguments of the functions that call them.
    - Code that can throw returns an [outcome]. *)

From Stdlib Require Import Ascii String ZArith List.
From stdpp Require Import gmap strings list sorting.

Local Open Scope string_scope.

#[local] Set Warnings "-register-all".

(** ** Characters *)

Module Chars.

Definition code (c : ascii) : N := N_of_ascii c.

Definition between (lo hi : N) (c : ascii) : bool :=
  ((lo <=? code c) && (code c <=? hi))%N.

(** [\d] *)
Definition isDigit : ascii -> bool := between 48 57.
Definition isLower : ascii -> bool := between 97 122.
Definition isUpper : ascii -> bool := between 65 90.

(** [\w] is [[A-Za-z0-9_]] *)
Definition isWord (c : ascii) : bool :=
  isDigit c || isLower c || isUpper c || Ascii.eqb c "_".

(** [\s], on ASCII: tab, line feed, vertical tab, form feed, carriage
    return and space. *)
Definition isSpace (c : ascii) : bool :=
  between 9 13 c || Ascii.eqb c " ".

(** [\n] or [\r] *)
Definition isNewline (c : ascii) : bool :=
  (code c =? 10)%N || (code c =? 13)%N.

Definition toUpper (c : ascii) : ascii :=
  if isLower c then ascii_of_N (code c - 32) else c.

Definition toLower (c : ascii) : ascii :=
  if isUpper c then ascii_of_N (code c + 32) else c.

Definition isSlash (c : ascii) : bool := Ascii.eqb c "/".
Definition isDot (c : ascii) : bool := Ascii.eqb c ".".

End Chars.

(** ** Strings as the code uses them *)

Module Str.

Definition chars : string -> list ascii := list_ascii_of_string.
Definition ofChars : list ascii -> string := string_of_list_ascii.

Fixpoint map (f : ascii -> ascii) (s : string) : string :=
  match s with
  | EmptyString => EmptyString
  | String c r => String (f c) (map f r)
  end.

Fixpoint filter (p : ascii -> bool) (s : string) : string :=
  match s with
  | EmptyString => EmptyString
  | String c r => if p c then String c (filter p r) else filter p r
  end.

Fixpoint dropWhile (p : ascii -> bool) (s : string) : string :=
  match s with
  | EmptyString => EmptyString
  | String c r => if p c then dropWhile p r else s
  end.

Fixpoint takeWhile (p : ascii -> bool) (s : string) : string :=
  match s with
  | EmptyString => EmptyString
  | String c r => if p c then String c (takeWhile p r) else EmptyString
  end.

Fixpoint forallb (p : ascii -> bool) (s : string) : bool :=
  match s with
  | EmptyString => true
  | String c r => p c && forallb p r
  end.

Definition rev (s : string) : string := ofChars (List.rev (chars s)).

Fixpoint take (n : nat) (s : string) : string :=
  match n, s with
  | S k, String c r => String c (take k r)
  | _, _ => EmptyString
  end.

Fixpoint drop (n : nat) (s : string) : string :=
  match n, s with
  | S k, String _ r => drop k r
  | _, _ => s
  end.

(** [s.split(sep)] for a one-character separator: never the empty list. *)
Fixpoint split (sep : ascii) (s : string) : list string :=
  match s with
  | EmptyString => [EmptyString]
  | String c r =>
      if Ascii.eqb c sep then EmptyString :: split sep r
      else match split sep r with
           | h :: t => String c h :: t
           | [] => [String c EmptyString]
           end
  end.

(** [parts.join(sep)] *)
Fixpoint join (sep : string) (parts : list string) : string :=
  match parts with
  | [] => EmptyString
  | [p] => p
  | p :: rest => p +:+ sep +:+ join sep rest
  end.

Definition endsWith (suffix s : string) : bool :=
  String.prefix (rev suffix) (rev s).

(** [s.replace(/c/g, by)] for a character class [p]. *)
Definition replaceClass (p : ascii -> bool) (by_ : ascii) : string -> string :=
  map (fun c => if p c then by_ else c).

(** [arr.pop()] on a fresh array: its last element. *)
Definition pop (l : list string) : option string := last l.

(** [arr.slice(-2, -1)[0]]: the element before the last. *)
Definition beforeLast (l : list string) : option string :=
  match List.rev l with
  | _ :: x :: _ => Some x
  | _ => None
  end.

End Str.

(** ** Node's [path] module, POSIX flavour *)

Module Path.

Import Chars.

(** [normalizeString]: the segments between separators are folded left to
    right over the segments kept so far (held in reverse). *)
Fixpoint normalizeSegs (allowAboveRoot : bool) (kept : list string)
    (segs : list string) : list string :=
  match segs with
  | [] => List.rev kept
  | seg :: rest =>
      if (String.eqb seg "" || String.eqb seg ".")%bool then
        normalizeSegs allowAboveRoot kept rest
      else if String.eqb seg ".." then
        match kept with
        | top :: below =>
            if String.eqb top ".." then
              normalizeSegs allowAboveRoot
                (if allowAboveRoot then ".." :: kept else kept) rest
            else normalizeSegs allowAboveRoot below rest
        | [] =>
            normalizeSegs allowAboveRoot
              (if allowAboveRoot then [".."] else []) rest
        end
      else normalizeSegs allowAboveRoot (seg :: kept) rest
  end.

Definition isAbsolute (p : string) : bool :=
  match p with String c _ => isSlash c | EmptyString => false end.

Definition hasTrailingSep (p : string) : bool :=
  match Str.rev p with String c _ => isSlash c | EmptyString => false end.

(** [path.normalize(p)] *)
Definition normalize (p : string) : string :=
  match p with
  | EmptyString => "."
  | _ =>
      let abs := isAbsolute p in
      let trail := hasTrailingSep p in
      let body := Str.join "/" (normalizeSegs (negb abs) [] (Str.split "/" p)) in
      match body with
      | EmptyString => if abs then "/" else if trail then "./" else "."
      | _ =>
          let body' := if trail then body +:+ "/" else body in
          if abs then "/" +:+ body' else body'
      end
  end.

(** [path.join(...parts)]: the non-empty arguments joined by [/], then
    normalized. *)
Definition join (parts : list string) : string :=
  match List.filter (fun s => negb (String.eqb s "")) parts with
  | [] => "."
  | ps => normalize (Str.join "/" ps)
  end.

(** [path.basename(p)] *)
Definition basename (p : string) : string :=
  Str.rev (Str.takeWhile (fun c => negb (isSlash c))
             (Str.dropWhile isSlash (Str.rev p))).

(** [path.dirname(p)]: the scan runs from the end down to index 1, so the
    first character is never inspected. *)
Definition dirname (p : string) : string :=
  match p with
  | EmptyString => "."
  | String c0 tl =>
      let r := Str.dropWhile (fun c => negb (isSlash c))
                 (Str.dropWhile isSlash (Str.rev tl)) in
      match r with
      | EmptyString => if isSlash c0 then "/" else "."
      | String _ before =>
          match before with
          | EmptyString => if isSlash c0 then "//" else String c0 ""
          | _ => String c0 (Str.rev before)
          end
      end
  end.

(** Index arithmetic of [extname] on the base name: the extension starts
    at the last dot, unless that dot opens the name or the name is [..]. *)
Definition extname (p : string) : string :=
  let b := basename p in
  let afterDot := Str.takeWhile (fun c => negb (isDot c)) (Str.rev b) in
  let n := String.length afterDot in
  if (n =? String.length b)%nat then ""            (* no dot at all *)
  else if (S n =? String.length b)%nat then ""     (* the dot is first *)
  else if String.eqb b ".." then ""
  else Str.drop (String.length b - S n) b.

(** [path.basename(p, ext)] where [ext] is [extname(p)], the only way the
    code calls it: the extension is either empty or a proper suffix of the
    base name. *)
Definition basenameExt (p ext : string) : string :=
  let b := basename p in
  if String.eqb ext "" then b
  else if String.eqb ext p then ""
  else if (Str.endsWith ext b && negb (String.eqb ext b))%bool
       then Str.take (String.length b - String.length ext) b
       else b.

End Path.

(** ** Outcomes of code that can throw *)

(** [Throw] is a JavaScript exception.  [Unsupported] marks an input on
    which the code is defined but which lies outside the fragment of
    JavaScript modelled here (it is never used for an input a theorem below
    evaluates). *)
Inductive outcome (A : Type) : Type :=
  | Ok (a : A)
  | Throw (e : string)
  | Unsupported.
Arguments Ok {A} a.
Arguments Throw {A} e.
Arguments Unsupported {A}.

Global Instance outcome_ret : MRet outcome := fun _ a => Ok a.
Global Instance outcome_bind : MBind outcome := fun _ _ f m =>
  match m with
  | Ok a => f a
  | Throw e => Throw e
  | Unsupported => Unsupported
  end.

(** [forEach] over an array with a body that can throw. *)
Fixpoint forEachM {A S : Type} (body : S -> A -> outcome S) (xs : list A)
    (s : S) : outcome S :=
  match xs with
  | [] => Ok s
  | x :: rest => s' ← body s x; forEachM body rest s'
  end.

(** ** JavaScript values *)

(** YAML and JSON data as the code handles it.  Numbers are restricted to
    integers; an object lists its own enumerable properties in insertion
    order. *)
Inductive value : Type :=
  | VUndef
  | VNull
  | VBool (b : bool)
  | VNum (z : Z)
  | VStr (s : string)
  | VObj (fields : list (string * value)).

Abbreviation obj := (list (string * value)).

Module Js.

(** Truthiness, as in [if (v)] and [v || w]. *)
Definition truthy (v : value) : bool :=
  match v with
  | VUndef | VNull => false
  | VBool b => b
  | VNum z => negb (z =? 0)%Z
  | VStr s => negb (String.eqb s "")
  | VObj _ => true
  end.

(** [o[k]] on the property list of an object. *)
Fixpoint get (k : string) (o : obj) : value :=
  match o with
  | [] => VUndef
  | (k', v) :: rest => if String.eqb k' k then v else get k rest
  end.

Fixpoint has (k : string) (o : obj) : bool :=
  match o with
  | [] => false
  | (k', _) :: rest => String.eqb k' k || has k rest
  end.

(** [o[k] = v]: an existing property keeps its place, a new one goes last. *)
Fixpoint set (k : string) (v : value) (o : obj) : obj :=
  match o with
  | [] => [(k, v)]
  | (k', v') :: rest =>
      if String.eqb k' k then (k', v) :: rest else (k', v') :: set k v rest
  end.

(** [_.omit(o, k)] *)
Definition omit (k : string) (o : obj) : obj :=
  List.filter (fun kv => negb (String.eqb (fst kv) k)) o.

Definition keys (o : obj) : list string := List.map fst o.

(** [v[k]]: reading a property of [undefined] or [null] throws. *)
Definition getProp (v : value) (k : string) : outcome value :=
  match v with
  | VObj o => Ok (get k o)
  | VUndef | VNull => Throw "TypeError: cannot read property of undefined"
  | _ => Ok VUndef
  end.

(** [v[k] = x], returning the updated [v]; writing to a primitive is
    silently dropped (the module is not in strict mode). *)
Definition setProp (v : value) (k : string) (x : value) : outcome value :=
  match v with
  | VObj o => Ok (VObj (set k x o))
  | VUndef | VNull => Throw "TypeError: cannot set property of undefined"
  | _ => Ok v
  end.

(** [v[p1][p2]...[pn] = f(v[p1]...[pn])] through the chain of objects. *)
Fixpoint update (path : list string) (f : value -> value) (v : value)
    : outcome value :=
  match path with
  | [] => Ok (f v)
  | p :: rest =>
      child ← getProp v p;
      child' ← update rest f child;
      setProp v p child'
  end.

(** [v[p1]...[pn]], [undefined] as soon as a step is not an object. *)
Fixpoint getPath (path : list string) (v : value) : value :=
  match path with
  | [] => v
  | p :: rest =>
      match v with
      | VObj o => getPath rest (get p o)
      | _ => VUndef
      end
  end.

(** The property name an [undefined] index coerces to. *)
Definition keyOf (k : option string) : string :=
  match k with Some s => s | None => "undefined" end.

(** [_.assign(target, src)] between objects read only by key. *)
Definition assign (target src : gmap string value) : gmap string value :=
  src ∪ target.

(** [_.assign({}, s1, ..., sn)] *)
Definition assignAll (sources : list (gmap string value)) : gmap string value :=
  foldl assign ∅ sources.

(** The replacement-string patterns of [String.prototype.replace] for a
    regular expression without capture groups. *)
Fixpoint expand (before matched after repl : string) : string :=
  match repl with
  | EmptyString => EmptyString
  | String a t =>
      if Ascii.eqb a "$" then
        match t with
        | String c r =>
            if Ascii.eqb c "$" then String "$" (expand before matched after r)
            else if Ascii.eqb c "&" then matched +:+ expand before matched after r
            else if Ascii.eqb c "`" then before +:+ expand before matched after r
            else if Ascii.eqb c "'" then after +:+ expand before matched after r
            else String a (expand before matched after t)
        | EmptyString => String a EmptyString
        end
      else String a (expand before matched after t)
  end.

End Js.

(** ** The regular expressions of the code *)

Module Re.

Import Chars.

(** *** [/^[0-9|\.\-]+/] in [getName] *)
Definition isOrderChar (c : ascii) : bool :=
  isDigit c || Ascii.eqb c "|" || Ascii.eqb c "." || Ascii.eqb c "-".

Definition stripLeadingOrder (s : string) : string :=
  Str.dropWhile isOrderChar s.

(** *** [/(\d+[\-\.])+/] in the [material] helper *)

Definition isDashOrDot (c : ascii) : bool :=
  Ascii.eqb c "-" || Ascii.eqb c ".".

(** One [\d+[\-\.]] at the head of [s]: what follows it. *)
Definition orderGroup (s : string) : option string :=
  match s with
  | String c _ =>
      if isDigit c then
        match Str.dropWhile isDigit s with
        | String d r => if isDashOrDot d then Some r else None
        | EmptyString => None
        end
      else None
  | EmptyString => None
  end.

(** The greedy repetition of further groups. *)
Fixpoint orderGroups (fuel : nat) (s : string) : string :=
  match fuel with
  | O => s
  | S f => match orderGroup s with
           | Some r => orderGroups f r
           | None => s
           end
  end.

(** [s.replace(/(\d+[\-\.])+/, '')]: the leftmost match only. *)
Fixpoint stripOrderOnce (s : string) : string :=
  match s with
  | EmptyString => EmptyString
  | String c t =>
      match orderGroup s with
      | Some r => orderGroups (String.length r) r
      | None => String c (stripOrderOnce t)
      end
  end.

(** *** [/^(\s*(\r?\n|\r))+|(\s*(\r?\n|\r))+$/g] on a fragment body *)

(** The leading alternative removes the initial run of white space up to
    and including its last line terminator. *)
Definition trimLeadingLines (s : string) : string :=
  let ws := Str.takeWhile isSpace s in
  let keptRev := Str.takeWhile (fun c => negb (isNewline c)) (Str.rev ws) in
  if (String.length keptRev =? String.length ws)%nat then s
  else Str.drop (String.length ws - String.length keptRev) s.

(** The trailing alternative removes the final run of white space when the
    text ends in a line terminator. *)
Definition trimTrailingLines (s : string) : string :=
  match Str.rev s with
  | String c _ =>
      if isNewline c then Str.rev (Str.dropWhile isSpace (Str.rev s)) else s
  | EmptyString => s
  end.

Definition trimBlankLines (s : string) : string :=
  trimTrailingLines (trimLeadingLines s).

(** *** [/^\s+/] *)
Definition trimLeadingSpace (s : string) : string := Str.dropWhile isSpace s.

(** *** [/\.[0-9a-z]+$/] in the output resolver *)

Definition isLowerAlnum (c : ascii) : bool := isDigit c || isLower c.

Definition isExtTail (s : string) : bool :=
  match s with
  | EmptyString => false
  | _ => Str.forallb isLowerAlnum s
  end.

(** The leftmost match, as the text before it and the match itself. *)
Fixpoint findExt (s : string) : option (string * string) :=
  match s with
  | EmptyString => None
  | String c r =>
      if (isDot c && isExtTail r)%bool then Some (EmptyString, s)
      else match findExt r with
           | Some (pre, m) => Some (String c pre, m)
           | None => None
           end
  end.

(** [p.replace(/\.[0-9a-z]+$/, ext)] *)
Definition replaceExt (ext p : string) : string :=
  match findExt p with
  | Some (pre, m) => pre +:+ Js.expand pre m "" ext
  | None => p
  end.

(** *** [/\{\%\s?body\s?\%\}/] in [wrapPage] *)

Definition optSpace (s : string) : list string :=
  match s with
  | String c r => if isSpace c then [r; s] else [s]
  | EmptyString => [s]
  end.

Definition stripLit (lit s : string) : option string :=
  if String.prefix lit s then Some (Str.drop (String.length lit) s) else None.

Definition firstSome {A B} (f : A -> option B) (l : list A) : option B :=
  head (omap f l).

(** The body marker at the head of [s]: what follows it.  The optional
    white space is tried greedily first. *)
Definition bodyMarker (s : string) : option string :=
  s1 ← stripLit "{%" s;
  firstSome (fun s2 =>
    s3 ← stripLit "body" s2;
    firstSome (stripLit "%}") (optSpace s3))
    (optSpace s1).

End Re.

(** ** Small helpers of [index.js] *)

(** [getName(filePath, preserveNumbers)] *)
Definition getName (filePath : string) (preserveNumbers : bool) : string :=
  let name :=
    Str.replaceClass Chars.isSpace "-"
      (Path.basenameExt filePath (Path.extname filePath)) in
  if preserveNumbers then name else Re.stripLeadingOrder name.

(** [getName] on a value that may be [undefined]: [path.extname] rejects a
    non-string argument. *)
Definition getNameOf (filePath : option string) (preserveNumbers : bool)
    : outcome string :=
  match filePath with
  | Some p => Ok (getName p preserveNumbers)
  | None => Throw "TypeError: the path argument must be of type string"
  end.

(** The callback of [/\w\S*/g] in [toTitleCase]: a word starts at a [\w]
    character and runs to the next white space.  [toUpperCase] and
    [toLowerCase] are taken on the ASCII letters; on text outside ASCII the
    code's case mapping changes other letters too, and can change the
    length of the text. *)
Fixpoint titleWords (inWord : bool) (s : string) : string :=
  match s with
  | EmptyString => EmptyString
  | String c r =>
      if inWord then
        if Chars.isSpace c then String c (titleWords false r)
        else String (Chars.toLower c) (titleWords true r)
      else
        if Chars.isWord c then String (Chars.toUpper c) (titleWords true r)
        else String c (titleWords false r)
  end.

(** [toTitleCase(str)], for ASCII text *)
Definition toTitleCase (str : string) : string :=
  titleWords false
    (Str.replaceClass (fun c => Ascii.eqb c "-" || Ascii.eqb c "_") " " str).

(** The leftmost body marker of a layout: text before, marker, text after. *)
Fixpoint findBody (s : string) : option (string * string * string) :=
  match Re.bodyMarker s with
  | Some rest =>
      Some (EmptyString, Str.take (String.length s - String.length rest) s, rest)
  | None =>
      match s with
      | EmptyString => None
      | String c r =>
          match findBody r with
          | Some (pre, m, post) => Some (String c pre, m, post)
          | None => None
          end
      end
  end.

(** [wrapPage(page, layout)]; [layout] is [undefined] when no layout of the
    requested id was loaded. *)
Definition wrapPage (page : string) (layout : option string) : outcome string :=
  match layout with
  | None => Throw "TypeError: cannot read property 'replace' of undefined"
  | Some l =>
      match findBody l with
      | Some (pre, m, post) => Ok (pre +:+ Js.expand pre m post page +:+ post)
      | None => Ok l
      end
  end.

(** ** Configuration and assembly state *)

(** The error object handed to [handleError]: its own enumerable properties,
    and the [message] and [stack] it is printed with. *)
Record jsError : Type := {
  errProps : gmap string value;
  errMessage : value;
  errStack : value;
}.

(** What the process does towards the outside. *)
Inductive event : Type :=
  | OnErrorCalled (error : gmap string value)
  | ConsoleError (message stack : value)
  | ProcessExit (status : Z)
  | Mkdirp (dir : string)
  | WriteFile (file contents : string).

(** A configured [onError]: [_.isFunction] tells functions from the rest. *)
Inductive callbackOption : Type :=
  | NotAFunction
  | Callback.

Module Options.
Record t : Type := {
  layout : string;
  views : list string;
  materials : list string;
  buildData : gmap string value;
  keys_materials : string;
  keys_views : string;
  keys_docs : string;
  dest : string;
  extension : string;
  destMap : gmap string value;
  onError : callbackOption;
  logErrors : bool;
}.

(** The [defaults] object. *)
Definition defaults : t := {|
  layout := "default";
  views := ["src/views/**/*"; "!src/views/+(layouts)/**"];
  materials := ["src/materials/**/*"];
  buildData := ∅;
  keys_materials := "materials";
  keys_views := "views";
  keys_docs := "docs";
  dest := "dist";
  extension := ".html";
  destMap := ∅;
  onError := NotAFunction;
  logErrors := false;
|}.
End Options.

Module Assembly.
Record t : Type := {
  layouts : gmap string string;
  data : gmap string value;
  materials : obj;
  materialData : gmap string value;
  views : obj;
  docs : obj;
}.
End Assembly.

(** ** [handleError] *)

Definition errorDefaults : gmap string value :=
  {[ "name" := VStr "Error";
     "reason" := VStr "";
     "message" := VStr "An error occurred" ]}.

(** The events of [handleError(e)], in order. *)
Definition handleError (options : Options.t) (e : jsError) : list event :=
  let exit0 := true in
  let error := Js.assignAll [errorDefaults; errProps e] in
  let '(ev1, exit1) :=
    match Options.onError options with
    | Callback => ([OnErrorCalled error], false)
    | NotAFunction => ([], exit0)
    end in
  let '(ev2, exit2) :=
    if Options.logErrors options
    then ([ConsoleError (errMessage e) (errStack e)], false)
    else ([], exit1) in
  let ev3 :=
    if exit2
    then [ConsoleError (errMessage e) (errStack e); ProcessExit 1]
    else [] in
  (ev1 ++ ev2 ++ ev3)%list.

(** ** [buildContext] *)

(** [hash] is [undefined] when [assemble] builds the context of a view. *)
Definition buildContext (options : Options.t) (assembly : Assembly.t)
    (data : gmap string value) (hash : option (gmap string value))
    : gmap string value :=
  let materials : gmap string value :=
    {[ Options.keys_materials options := VObj (Assembly.materials assembly) ]} in
  let views : gmap string value :=
    {[ Options.keys_views options := VObj (Assembly.views assembly) ]} in
  let docs : gmap string value :=
    {[ Options.keys_docs options := VObj (Assembly.docs assembly) ]} in
  Js.assignAll
    [data; Assembly.data assembly; Assembly.materialData assembly;
     Options.buildData options; materials; views; docs; default ∅ hash].

(** ** The fragment namespacer *)

Module Namespacer.

Import Chars.

(** Characters that stand for themselves in a [RegExp] source. *)
Definition regexLiteral (c : ascii) : bool :=
  negb (existsb (Ascii.eqb c)
          (Str.chars "\^$.*+?()[]{}|")).

(** The keys for which the pattern built from [key] is modelled: those made
    of literal characters only. *)
Definition literalKey (key : string) : bool :=
  negb (String.eqb key "") && Str.forallb regexLiteral key.

Section Matcher.
Context {A : Type}.

(** A literal character, then [k]. *)
Definition lit (c : ascii) (k : string -> option A) (s : string) : option A :=
  match s with
  | String c' r => if Ascii.eqb c' c then k r else None
  | EmptyString => None
  end.

(** A greedy optional character of class [p]: taking it is tried first,
    leaving it is tried when the rest then fails. *)
Definition opt (p : ascii -> bool) (k : option ascii -> string -> option A)
    (s : string) : option A :=
  match s with
  | String c r =>
      if p c then
        match k (Some c) r with
        | Some x => Some x
        | None => k None s
        end
      else k None s
  | EmptyString => k None s
  end.

(** [c+?]: one [c], then as few more as the rest needs. *)
Fixpoint lazyPlus (c : ascii) (k : string -> option A) (s : string) : option A :=
  match s with
  | String c' r =>
      if Ascii.eqb c' c then
        match k r with
        | Some x => Some x
        | None => lazyPlus c k r
        end
      else None
  | EmptyString => None
  end.

(** [key + '+?']: the quantifier binds to the last character of [key]. *)
Fixpoint keyPlus (key : string) (k : string -> option A) (s : string) : option A :=
  match key with
  | EmptyString => None
  | String c rest =>
      match rest with
      | EmptyString => lazyPlus c k s
      | _ => lit c (keyPlus rest k) s
      end
  end.
End Matcher.

Definition isHashOrSlash (c : ascii) : bool :=
  Ascii.eqb c "#" || Ascii.eqb c "/".

(** [(\{\{[#\/]?)(\s?key+?\s?)(\}\})] at the head of [s]: the sigil of the
    first group, the second group, and what follows the match. *)
Definition matchField (key s : string) : option (option ascii * string * string) :=
  lit "{" (lit "{" (opt isHashOrSlash (fun sigil s3 =>
    opt isSpace (fun _ =>
      keyPlus key (opt isSpace (fun _ s6 =>
        lit "}" (lit "}" (fun s8 =>
          Some (sigil, Str.take (String.length s3 - String.length s6) s3, s8)))
          s6)))
      s3))) s.

(** The callback: [p1 + id.replace(/\./g, '-') + '.' + p2.replace(/\s/g, '') + p3]. *)
Definition rewritten (nsId : string) (sigil : option ascii) (p2 : string) : string :=
  "{{" +:+ match sigil with Some c => String c "" | None => "" end
       +:+ nsId +:+ "." +:+ Str.filter (fun c => negb (isSpace c)) p2 +:+ "}}".

(** [content.replace(regex, callback)] with the [g] flag; [skip] counts the
    characters of the current match still to pass over. *)
Fixpoint replaceField (nsId key : string) (skip : nat) (s : string) : string :=
  match s with
  | EmptyString => EmptyString
  | String c t =>
      match skip with
      | S n => replaceField nsId key n t
      | O =>
          match matchField key s with
          | Some (sigil, p2, rest) =>
              rewritten nsId sigil p2
                +:+ replaceField nsId key (String.length t - String.length rest) t
          | None => String c (replaceField nsId key 0 t)
          end
      end
  end.

(** [id.replace(/\./g, '-')] *)
Definition namespacedId (id : string) : string :=
  Str.replaceClass isDot "-" id.

(** One turn of [_.forEach(localData, ...)]. *)
Definition namespaceField (id : string) (content key : string) : outcome string :=
  if String.eqb key "" then Throw "SyntaxError: nothing to repeat"
  else if literalKey key
       then Ok (replaceField (namespacedId id) key 0 content)
       else Unsupported.

(** lodash iterates an object with a numeric [length] by index, not by key. *)
Definition arrayLike (o : obj) : bool :=
  match Js.get "length" o with
  | VNum z => (0 <=? z)%Z
  | _ => false
  end.

(** The whole rewriting of a fragment body, field after field over the
    current body. *)
Definition namespaceBody (id : string) (localData : obj) (content : string)
    : outcome string :=
  if arrayLike localData then Unsupported
  else forEachM (namespaceField id) (Js.keys localData) content.

End Namespacer.

(** ** Sorting *)

(** [sortObj] is the [sort-object] package, which is not part of the
    sources. *)
Module SortObject.

(** The order [sortObj(o, 'order')] leaves the entries in.  The package
    takes an object of options in the second place; the string passed here
    has none of them, so the package sorts as it does without options: by
    key, ascending in the order of [<] on strings ("sort materials object
    alphabetically", line 389).  An [order] attribute of an entry plays no
    part. *)
Definition entryLe (a b : string * value) : Prop := String.le (fst a) (fst b).

Global Instance entryLe_dec : RelDecision entryLe.
Proof. intros a b. unfold entryLe. apply _. Defined.

(** [sortObj(o, prop)]: a new object, filled in the sorted order.  The
    statements about the order are for the names of [plainName] below. *)
Definition sortObj (o : obj) (prop : string) : obj :=
  merge_sort entryLe o.

End SortObject.

(** ** External collaborators *)

(** What [gray-matter] returns for a file. *)
Record fileMatter : Type := {
  matterData : obj;
  matterContent : string;
}.

(** The file system as the code sees it: [globby.sync(patterns, {nodir})],
    [matter.read] and [md.render]. *)
Record world : Type := {
  globby : bool -> list string -> list string;
  getMatter : string -> fileMatter;
  mdRender : string -> string;
}.

(** A compiled template. *)
Definition renderer : Type := gmap string value -> outcome string.

(** An entry of [Handlebars.partials]: template source as registered, or a
    compiled function. *)
Inductive partial : Type :=
  | PSource (source : string)
  | PCompiled (fn : renderer).

(** [Handlebars.compile] on strings and [beautifyHtml]. *)
Record engine : Type := {
  compile : string -> renderer;
  beautifyHtml : string -> string;
}.

(** [Handlebars.compile(input)]: anything but a string (or an AST) is
    rejected when [compile] is called. *)
Definition handlebarsCompile (e : engine) (input : option string) : outcome renderer :=
  match input with
  | Some source => Ok (compile e source)
  | None =>
      Throw "You must pass a string or Handlebars AST to Handlebars.compile. You passed undefined"
  end.

(** ** [parseMaterials] *)

Module Materials.

Record state : Type := {
  materials : obj;
  materialData : gmap string value;
  partials : gmap string partial;
}.

(** [path.normalize(path.dirname(file)).split(path.sep)] *)
Definition dirSegments (file : string) : list string :=
  Str.split "/" (Path.normalize (Path.dirname file)).

(** [dirsGlob] *)
Definition dirsGlob (options : Options.t) : list string :=
  List.map (fun pattern => Path.dirname pattern +:+ "/*/") (Options.materials options).

(** [dirs]: the name of every matched directory ([undefined] when the
    matched path has a single segment). *)
Definition dirs (w : world) (options : Options.t) : list (option string) :=
  List.map (fun dir => Str.beforeLast (Str.split "/" (Path.normalize dir)))
    (globby w false (dirsGlob options)).

(** [dirs.indexOf(parent) > -1] *)
Definition indexOfFound (ds : list (option string)) (parent : option string) : bool :=
  bool_decide (parent ∈ ds).

(** [isSubCollection] as the stubbing loop computes it (line 311). *)
Definition isSubCollectionStub (ds : list (option string)) (file : string)
    : outcome bool :=
  parent ← getNameOf (Str.beforeLast (dirSegments file)) true;
  Ok (indexOfFound ds (Some parent)).

(** [isSubCollection] as the populating loop computes it (line 339). *)
Definition isSubCollectionParse (ds : list (option string)) (file : string) : bool :=
  indexOfFound ds (Str.beforeLast (dirSegments file)).

Definition stub (name : string) : value :=
  VObj [("name", VStr (toTitleCase (getName name false))); ("items", VObj [])].

(** [x || y] *)
Definition orElse (x y : value) : value := if Js.truthy x then x else y.

(** [o[p1]...[pn] = f(o[p1]...[pn])] from the top-level object. *)
Definition updateObj (path : list string) (f : value -> value) (o : obj)
    : outcome obj :=
  match path with
  | [] => Ok o
  | p :: rest =>
      child' ← Js.update rest f (Js.get p o);
      Ok (Js.set p child' o)
  end.

(** The body of the first [files.forEach]. *)
Definition stubFile (ds : list (option string)) (mats : obj) (file : string)
    : outcome obj :=
  parent ← getNameOf (Str.beforeLast (dirSegments file)) true;
  collection ← getNameOf (Str.pop (dirSegments file)) true;
  let isSubCollection := indexOfFound ds (Some parent) in
  let materialBase := if isSubCollection then parent else collection in
  mats1 ← updateObj [materialBase] (fun cur => orElse cur (stub materialBase)) mats;
  if isSubCollection
  then updateObj [parent; "items"; collection]
         (fun cur => orElse cur (stub collection)) mats1
  else Ok mats1.

(** [(fileMatter.data.notes) ? md.render(fileMatter.data.notes) : ''] *)
Definition renderNotes (w : world) (data : obj) : outcome string :=
  let notes := Js.get "notes" data in
  if Js.truthy notes then
    match notes with
    | VStr s => Ok (mdRender w s)
    | _ => Throw "Input data should be a String"
    end
  else Ok "".

Definition item (name notes : string) (localData : obj) : value :=
  VObj [("name", VStr name); ("notes", VStr notes); ("data", VObj localData)].

(** The [id] of a material (line 340). *)
Definition materialId (isSubCollection : bool) (collection file : string) : string :=
  if isSubCollection
  then getName collection false +:+ "." +:+ getName file false
  else getName file false.

(** The [key] of a material in its collection (line 341). *)
Definition materialKey (isSubCollection : bool) (collection file : string) : string :=
  if isSubCollection
  then collection +:+ "." +:+ getName file true
  else getName file true.

(** The body of the second [files.forEach]. *)
Definition parseFile (w : world) (ds : list (option string)) (st : state)
    (file : string) : outcome state :=
  let fm := getMatter w file in
  collection ← getNameOf (Str.pop (dirSegments file)) true;
  let parent := Str.beforeLast (dirSegments file) in
  let isSubCollection := indexOfFound ds parent in
  let id := materialId isSubCollection collection file in
  let key := materialKey isSubCollection collection file in
  let localData := Js.omit "notes" (matterData fm) in
  let content := Re.trimBlankLines (matterContent fm) in
  notes ← renderNotes w (matterData fm);
  mats ←
    (if negb isSubCollection then
       updateObj [collection; "items"; key]
         (fun _ => item (toTitleCase id) notes localData) (materials st)
     else
       match Str.split "." id !! 1%nat with
       | Some leaf =>
           updateObj [Js.keyOf parent; "items"; collection; "items"; key]
             (fun _ => item (toTitleCase leaf) notes localData) (materials st)
       | None => Throw "TypeError: cannot read property 'replace' of undefined"
       end);
  let mdata := <[Namespacer.namespacedId id := VObj localData]> (materialData st) in
  content' ←
    (match localData with
     | [] => Ok content
     | _ => Namespacer.namespaceBody id localData content
     end);
  Ok {| materials := mats;
        materialData := mdata;
        partials := <[id := PSource content']> (partials st) |}.

(** [collection.items = sortObj(collection.items, 'order')] *)
Definition sortItems (entry : string * value) : outcome (string * value) :=
  items ← Js.getProp (snd entry) "items";
  match items with
  | VObj fs =>
      v ← Js.setProp (snd entry) "items" (VObj (SortObject.sortObj fs "order"));
      Ok (fst entry, v)
  | _ => Unsupported
  end.

Fixpoint mapM {A B} (f : A -> outcome B) (l : list A) : outcome (list B) :=
  match l with
  | [] => Ok []
  | x :: rest => y ← f x; ys ← mapM f rest; Ok (y :: ys)
  end.

(** The two [files.forEach] loops of [parseMaterials()]: [materialData] and
    the registry of partials outlive a call, the materials tree is reset. *)
Definition populate (w : world) (options : Options.t)
    (materialData0 : gmap string value) (partials0 : gmap string partial)
    : outcome state :=
  let files := globby w true (Options.materials options) in
  let ds := dirs w options in
  stubbed ← forEachM (stubFile ds) files [];
  forEachM (parseFile w ds) files
    {| materials := stubbed;
       materialData := materialData0;
       partials := partials0 |}.

(** [parseMaterials()] *)
Definition parseMaterials (w : world) (options : Options.t)
    (materialData0 : gmap string value) (partials0 : gmap string partial)
    : outcome state :=
  st ← populate w options materialData0 partials0;
  sorted ← mapM sortItems (SortObject.sortObj (materials st) "order");
  Ok {| materials := sorted;
        materialData := materialData st;
        partials := partials st |}.

End Materials.

(** ** [parseViews] and [assemble] *)

Module Views.

(** [dirname] of lines 502 and 632: the name of the directory holding the
    file. *)
Definition dirName (file : string) : option string :=
  Str.pop (Materials.dirSegments file).

(** [collection = (dirname !== options.keys.views) ? dirname : ''] *)
Definition collectionName (options : Options.t) (file : string) : string :=
  match dirName file with
  | Some dirname =>
      if negb (String.eqb dirname (Options.keys_views options)) then dirname else ""
  | None => ""
  end.

Definition viewStub (collection : string) : value :=
  VObj [("name", VStr (toTitleCase collection)); ("items", VObj [])].

(** The body of [files.forEach] in [parseViews]. *)
Definition parseView (w : world) (options : Options.t) (views : obj)
    (file : string) : outcome obj :=
  let id := getName file true in
  let collection := collectionName options file in
  let fileData := Js.omit "notes" (matterData (getMatter w file)) in
  if negb (String.eqb collection "") then
    views1 ← Materials.updateObj [collection]
               (fun cur => Materials.orElse cur (viewStub collection)) views;
    Materials.updateObj [collection; "items"; id]
      (fun _ => VObj [("name", VStr (toTitleCase id)); ("data", VObj fileData)])
      views1
  else Ok views.

(** [parseViews()] *)
Definition parseViews (w : world) (options : Options.t) : outcome obj :=
  forEachM (parseView w options) (globby w true (Options.views options)) [].

(** A string handed to [path.normalize] or [path.join]. *)
Definition pathArg (v : value) : outcome string :=
  match v with
  | VStr s => Ok s
  | _ => Throw "TypeError: the path argument must be of type string"
  end.

(** [pageMatter.data] once [baseurl] is injected (lines 640 to 642). *)
Definition pageData (options : Options.t) (w : world) (file : string) : obj :=
  let data := matterData (getMatter w file) in
  if negb (String.eqb (collectionName options file) "")
  then Js.set "baseurl" (VStr "..") data
  else data.

(** [filePath] as lines 634 and 650 to 659 leave it. *)
Definition outputPath (options : Options.t) (data : obj) (file : string)
    : outcome string :=
  let collection := collectionName options file in
  let filePath :=
    Path.normalize (Path.join [Options.dest options; collection; Path.basename file]) in
  filePath1 ←
    (if Js.truthy (Js.get "dest" data)
     then d ← pathArg (Js.get "dest" data); Ok (Path.normalize d)
     else Ok filePath);
  filePath2 ←
    (match Options.destMap options !! collection with
     | Some entry =>
         if Js.truthy entry
         then e ← pathArg entry;
              Ok (Path.normalize (Path.join [e; Path.basename file]))
         else Ok filePath1
     | None => Ok filePath1
     end);
  Ok (Re.replaceExt (Options.extension options) filePath2).

(** [pageMatter.data.layout || options.layout], as a layout id. *)
Definition layoutId (options : Options.t) (data : obj) : outcome string :=
  let l := Js.get "layout" data in
  if Js.truthy l then
    match l with
    | VStr s => Ok s
    | _ => Unsupported
    end
  else Ok (Options.layout options).

(** The body of [files.forEach] in [assemble]: the events of one view. *)
Definition assembleView (w : world) (e : engine) (options : Options.t)
    (assembly : Assembly.t) (file : string) : outcome (list event) :=
  let pageContent := matterContent (getMatter w file) in
  let data := pageData options w file in
  lid ← layoutId options data;
  source ← wrapPage pageContent (Assembly.layouts assembly !! lid);
  let context := buildContext options assembly (list_to_map data) None in
  let template := compile e source in
  filePath ← outputPath options data file;
  out ← template context;
  copy ←
    (if Js.truthy (Js.get "dest-copy" data) then
       c ← pathArg (Js.get "dest-copy" data);
       out2 ← template context;
       Ok [Mkdirp (Path.dirname (Path.normalize c));
           WriteFile (Path.normalize c) out2]
     else Ok []);
  Ok ([Mkdirp (Path.dirname filePath); WriteFile filePath out] ++ copy)%list.

(** [assemble()]: the events of a run in which nothing throws. *)
Definition assemble (w : world) (e : engine) (options : Options.t)
    (assembly : Assembly.t) : outcome (list event) :=
  forEachM (fun events file =>
              evs ← assembleView w e options assembly file;
              Ok (events ++ evs)%list)
    (globby w true (Options.views options))
    [Mkdirp (Options.dest options)].

End Views.

(** ** The [material] helper *)

Module Helper.

(** The registry of partials and the sources handed to
    [Handlebars.compile] so far. *)
Record state : Type := {
  partials : gmap string partial;
  compiled : list string;
}.

(** [name.replace(/(\d+[\-\.])+/, '').replace(/(\d+[\-\.])+/, '')] *)
Definition lookupKey (name : string) : string :=
  Re.stripOrderOnce (Re.stripOrderOnce name).

(** What [Handlebars.partials[key]] finds for a [key] no partial is
    registered under.  The registry is a plain object, so the names every
    object inherits from [Object.prototype] are found in it: [toString], the
    constructor, the other built-in methods, and the prototype itself under
    [__proto__]. *)
Inductive inherited : Type :=
  | InheritedToString
  | InheritedConstructor
  | InheritedMethod
  | InheritedPrototype.

Definition objectPrototype (key : string) : option inherited :=
  if String.eqb key "toString" then Some InheritedToString
  else if String.eqb key "constructor" then Some InheritedConstructor
  else if existsb (String.eqb key)
            ["toLocaleString"; "valueOf"; "hasOwnProperty"; "isPrototypeOf";
             "propertyIsEnumerable"; "__defineGetter__"; "__defineSetter__";
             "__lookupGetter__"; "__lookupSetter__"]
  then Some InheritedMethod
  else if String.eqb key "__proto__" then Some InheritedPrototype
  else None.

(** An inherited function in the place of a compiled template: the helper
    calls it as [fn(context)], without a receiver.  [toString] answers for
    [undefined]; [Object(context)] returns the context, which has no
    [replace] to call; the other methods need a receiver. *)
Definition callInherited (i : inherited) : renderer :=
  fun _ =>
    match i with
    | InheritedToString => Ok "[object Undefined]"
    | InheritedConstructor => Throw "TypeError: fn(...).replace is not a function"
    | _ => Throw "TypeError: cannot convert undefined or null to object"
    end.

(** The function the helper ends up calling, and the state after
    getting it (lines 576 to 584). *)
Definition resolve (e : engine) (key : string) (st : state)
    : outcome renderer * state :=
  match partials st !! key with
  | Some (PCompiled fn) => (Ok fn, st)
  | Some (PSource source) =>
      (handlebarsCompile e (Some source),
       {| partials := partials st; compiled := (compiled st ++ [source])%list |})
  | None =>
      match objectPrototype key with
      | Some InheritedPrototype =>
          (Throw "You must pass a string or Handlebars AST to Handlebars.compile. You passed [object Object]",
           st)
      | Some i => (Ok (callInherited i), st)
      | None => (handlebarsCompile e None, st)
      end
  end.

(** [opts.hash] of line 587.  Handlebars hands its options object to a
    helper as the last argument: [opts] is that object when the call names a
    context ([{{material name context}}]), and [undefined] when it names
    none ([{{material name}}], where the options object lands in
    [context]). *)
Definition hashOf (opts : option (gmap string value)) : outcome (gmap string value) :=
  match opts with
  | Some hash => Ok hash
  | None => Throw "TypeError: cannot read property 'hash' of undefined"
  end.

(** The helper registered under the singular of [options.keys.materials],
    called with [(name, context, opts)]. *)
Definition material (e : engine) (options : Options.t) (assembly : Assembly.t)
    (name : string) (context : gmap string value)
    (opts : option (gmap string value)) (st : state)
    : outcome string * state :=
  let key := lookupKey name in
  let '(fn, st') := resolve e key st in
  (f ← fn;
   hash ← hashOf opts;
   out ← f (buildContext options assembly context (Some hash));
   Ok (beautifyHtml e (Re.trimLeadingSpace out)),
   st').

End Helper.

(** ** Reading a merge, and concrete runs *)

(** The value of [k] in the last of [sources] that defines it. *)
Fixpoint lastDefined (k : string) (sources : list (gmap string value)) : option value :=
  match sources with
  | [] => None
  | s :: rest =>
      match lastDefined k rest with
      | Some v => Some v
      | None => s !! k
      end
  end.

Module Fixtures.

Definition lookupTable {A} (d : A) (t : list (string * A)) (k : string) : A :=
  match List.find (fun kv => String.eqb (fst kv) k) t with
  | Some kv => snd kv
  | None => d
  end.

Definition noMatter : fileMatter := {| matterData := []; matterContent := "" |}.

(** A file system given by the answers of its globs and the front matter
    of its files. *)
Definition tableWorld (files dirs : list (list string * list string))
    (matters : list (string * fileMatter)) : world :=
  {| globby := fun nodir patterns =>
       match List.find (fun row => bool_decide (fst row = patterns))
               (if nodir then files else dirs) with
       | Some row => snd row
       | None => []
       end;
     getMatter := lookupTable noMatter matters;
     mdRender := fun s => "<p>" +:+ s +:+ "</p>" |}.

(** An engine whose templates render as their own source. *)
Definition echoEngine : engine :=
  {| compile := fun source _ => Ok source;
     beautifyHtml := fun html => html |}.

Definition withOptions (views : list string) (keysViews dest extension : string)
    (destMap : gmap string value) : Options.t :=
  {| Options.layout := "default";
     Options.views := views;
     Options.materials := ["src/materials/**/*"];
     Options.buildData := ∅;
     Options.keys_materials := "materials";
     Options.keys_views := keysViews;
     Options.keys_docs := "docs";
     Options.dest := dest;
     Options.extension := extension;
     Options.destMap := destMap;
     Options.onError := NotAFunction;
     Options.logErrors := false |}.

(** A site with one view directly under [src/views] and one in the
    collection [forms]. *)
Definition siteWorld : world :=
  tableWorld
    [(Options.views Options.defaults,
      ["src/views/index.html"; "src/views/forms/input.html"])]
    []
    [("src/views/index.html",
      {| matterData := [("title", VStr "Home")];
         matterContent := "<h1>{{title}}</h1>" |});
     ("src/views/forms/input.html",
      {| matterData := [("title", VStr "Input")];
         matterContent := "<input>" |})].

Definition siteAssembly : Assembly.t :=
  {| Assembly.layouts := {[ "default" := "<main>{% body %}</main>" ]};
     Assembly.data := ∅; Assembly.materials := [];
     Assembly.materialData := ∅; Assembly.views := []; Assembly.docs := [] |}.

(** Materials: a top-level fragment with front matter, and a nested
    collection with numeric prefixes. *)
Definition materialsWorld : world :=
  tableWorld
    [(["src/materials/**/*"],
      ["src/materials/components/02-buttons/01-primary.html";
       "src/materials/components/02-buttons/00-ghost.html";
       "src/materials/components/button.html";
       "src/materials/structures/header.html"])]
    [(["src/materials/**/*/"],
      ["src/materials/components/"; "src/materials/components/02-buttons/";
       "src/materials/structures/"])]
    [("src/materials/components/button.html",
      {| matterData := [("title", VStr "Go"); ("notes", VStr "A button")];
         matterContent := "<button>{{title}} {{titlee}}</button>" |});
     ("src/materials/components/02-buttons/01-primary.html",
      {| matterData := [];
         matterContent := "<button class=primary></button>" |})].

(** Materials below a directory whose name has a dot. *)
Definition dottedWorld : world :=
  tableWorld
    [(["src/materials/**/*"], ["src/materials/v1.2/buttons/a.html"])]
    [(["src/materials/**/*/"],
      ["src/materials/v1.2/"; "src/materials/v1.2/buttons/"])]
    [].


(** A registry holding the source of one fragment, nothing compiled yet. *)
Definition primaryRegistry : Helper.state :=
  {| Helper.partials := {[ "buttons.primary" := PSource "  <b></b>" ]};
     Helper.compiled := [] |}.

End Fixtures.

(** ** Predicates used in the statements *)

(** A replacement string without [$] patterns. *)
Definition dollarFree (s : string) : bool :=
  Str.forallb (fun c => negb (Ascii.eqb c "$")) s.

(** A key of literal characters, without white space and not opening with a
    block sigil. *)
Definition plainKey (key : string) : bool :=
  Namespacer.literalKey key
  && Str.forallb (fun c => negb (Chars.isSpace c)) key
  && match key with
     | String c _ => negb (Namespacer.isHashOrSlash c)
     | EmptyString => false
     end.

(** A name segment without digits. *)
Definition digitFree (s : string) : bool :=
  Str.forallb (fun c => negb (Chars.isDigit c)) s.

(** The shape every collection of the views tree has after [done] files:
    it stems from a view with a collection and lists views of that
    collection only. *)
Definition viewsSound (options : Options.t) (done : list string) (views : obj) : Prop :=
  ∀ c v, (c, v) ∈ views →
    c ≠ ""
    ∧ (∃ f, f ∈ done ∧ Views.collectionName options f = c)
    ∧ ∃ n items,
        v = VObj [("name", VStr n); ("items", VObj items)]
        ∧ ∀ id x, (id, x) ∈ items →
            ∃ f, f ∈ done ∧ Views.collectionName options f = c
                 ∧ getName f true = id.

(** Every view with a collection is listed in it. *)
Definition viewsComplete (options : Options.t) (done : list string) (views : obj) : Prop :=
  ∀ f, f ∈ done → Views.collectionName options f ≠ "" →
    ∃ n items,
      Js.get (Views.collectionName options f) views
        = VObj [("name", VStr n); ("items", VObj items)]
      ∧ Js.has (getName f true) items = true.

Definition viewsWf (options : Options.t) (done : list string) (views : obj) : Prop :=
  viewsSound options done views ∧ viewsComplete options done views.




(** Case analysis on the steps of a computation that ended in [Ok]. *)
Ltac okSteps H :=
  repeat match type of H with
         | mbind _ ?m = Ok _ =>
             let E := fresh "E" in
             destruct m eqn:E; simpl in H; [|discriminate H..]
         end.

(** ** The loaders of layouts, includes, data files and docs *)

(** The glob patterns of the loaders ([options.layouts],
    [options.layoutIncludes], [options.data], [options.docs]). *)
Module Sources.
Record t : Type := {
  layouts : list string;
  layoutIncludes : list string;
  data : list string;
  docs : list string;
}.

(** Their values in the [defaults] object. *)
Definition defaults : t := {|
  layouts := ["src/views/layouts/*"];
  layoutIncludes := ["src/views/layouts/includes/*"];
  data := ["src/data/**/*.{json,yml}"];
  docs := ["src/docs/**/*.md"];
|}.
End Sources.

(** [fs.readFileSync(file, 'utf-8')] on a file the glob has just listed, and
    [yaml.safeLoad], which throws on malformed input. *)
Record disk : Type := {
  readFileSync : string -> string;
  safeLoad : string -> outcome value;
}.

Module Loaders.

(** [parseLayouts()]: [assembly.layouts] after the call. *)
Definition parseLayouts (w : world) (d : disk) (src : Sources.t) : gmap string string :=
  foldl (fun layouts file => <[getName file false := readFileSync d file]> layouts)
    ∅ (globby w true (Sources.layouts src)).

(** [parseLayoutIncludes()]: the registry of partials after the call. *)
Definition parseLayoutIncludes (w : world) (d : disk) (src : Sources.t)
    (partials : gmap string partial) : gmap string partial :=
  foldl (fun ps file => <[getName file false := PSource (readFileSync d file)]> ps)
    partials (globby w true (Sources.layoutIncludes src)).

(** [parseData()]: [assembly.data] after the call. *)
Definition parseData (w : world) (d : disk) (src : Sources.t)
    : outcome (gmap string value) :=
  forEachM (fun data file =>
              content ← safeLoad d (readFileSync d file);
              Ok (<[getName file false := content]> data))
    (globby w true (Sources.data src)) ∅.

(** The entry [parseDocs] stores for a file. *)
Definition doc (w : world) (d : disk) (file : string) : value :=
  VObj [("name", VStr (toTitleCase (getName file false)));
        ("content", VStr (mdRender w (readFileSync d file)))].

(** [parseDocs()]: [assembly.docs] after the call. *)
Definition parseDocs (w : world) (d : disk) (src : Sources.t) : obj :=
  foldl (fun docs file => Js.set (getName file false) (doc w d file) docs)
    [] (globby w true (Sources.docs src)).

End Loaders.

(** ** [registerHelpers] *)

Module Helpers.

Import Chars.

(** [.] of a regular expression: anything but a line terminator. *)
Definition isAny (c : ascii) : bool := negb (isNewline c).

(** [\.\w] at the head of [s]. *)
Definition dotWord (s : string) : bool :=
  match s with
  | String c (String w _) => isDot c && isWord w
  | _ => false
  end.

(** The greedy [(.+)] before [(\.\w+)], as a prefix of [s]: the longest one
    that leaves a dot and a word character behind it.  [s] holds no line
    terminator. *)
Fixpoint beforeExt (s : string) : option string :=
  match s with
  | EmptyString => None
  | String c t =>
      match beforeExt t with
      | Some g => Some (String c g)
      | None => if dotWord s then Some EmptyString else None
      end
  end.

(** [helper.match(/(^\w+?-)(.+)(\.\w+)/)[2]]: the key a helper file is
    registered under; indexing the [null] of a failed match throws. *)
Definition helperKey (helper : string) : outcome string :=
  let noMatch := Throw "TypeError: cannot read property '2' of null" in
  match Str.takeWhile isWord helper, Str.dropWhile isWord helper with
  | String _ _, String dash rest =>
      if Ascii.eqb dash "-" then
        match Str.takeWhile isAny rest with
        | String c t =>
            match beforeExt t with
            | Some g => Ok (String c g)
            | None => noMatch
            end
        | EmptyString => noMatch
        end
      else noMatch
  | _, _ => noMatch
  end.

(** What [registerHelpers] works from, for callables of type [H]: the file
    names of the [helpers] directory, [require], [options.helpers], the name
    [inflect.singularize(options.keys.materials)] and the helper defined in
    place. *)
Record env (H : Type) : Type := {
  localHelpers : list string;
  require : string -> H;
  userHelpers : list (string * H);
  singular : string;
  material : H;
}.
Arguments localHelpers {H} _.
Arguments require {H} _.
Arguments userHelpers {H} _.
Arguments singular {H} _.
Arguments material {H} _.

Section Registry.
Context {H : Type}.

(** [registerHelpers()]: [Handlebars.helpers] after the call. *)
Definition registerHelpers (h : env H) (helpers : gmap string H)
    : outcome (gmap string H) :=
  local ← forEachM (fun hs helper =>
                      key ← helperKey helper;
                      Ok (<[key := require h helper]> hs))
             (localHelpers h) helpers;
  let user := foldl (fun hs kv => <[fst kv := snd kv]> hs) local (userHelpers h) in
  Ok (<[singular h := material h]> user).
End Registry.

End Helpers.

(** ** [setup] *)

Module Setup.

(** What a call of [setup] leaves behind: the registered helpers, the
    assembly tables and the registry of partials. *)
Record state (H : Type) : Type := {
  helpers : gmap string H;
  assembly : Assembly.t;
  partials : gmap string partial;
}.
Arguments helpers {H} _.
Arguments assembly {H} _.
Arguments partials {H} _.

(** [setup(userOptions)], with the options already merged: the seven steps
    in their order.  [helpers0], [materialData0] and [partials0] are what
    earlier calls in the same process left. *)
Definition setup {H : Type} (w : world) (d : disk) (options : Options.t)
    (src : Sources.t) (h : Helpers.env H) (helpers0 : gmap string H)
    (materialData0 : gmap string value) (partials0 : gmap string partial)
    : outcome (state H) :=
  hs ← Helpers.registerHelpers h helpers0;
  let layouts := Loaders.parseLayouts w d src in
  let partials1 := Loaders.parseLayoutIncludes w d src partials0 in
  data ← Loaders.parseData w d src;
  mats ← Materials.parseMaterials w options materialData0 partials1;
  views ← Views.parseViews w options;
  let docs := Loaders.parseDocs w d src in
  Ok {| helpers := hs;
        assembly :=
          {| Assembly.layouts := layouts;
             Assembly.data := data;
             Assembly.materials := Materials.materials mats;
             Assembly.materialData := Materials.materialData mats;
             Assembly.views := views;
             Assembly.docs := docs |};
        partials := Materials.partials mats |}.

End Setup.

(** ** The whole invocation *)

Module Main.

(** What a run does towards the outside, the message of line 668 included. *)
Inductive step : Type :=
  | Did (e : event)
  | TemplateErrorLogged (originFilePath : string).

(** A run so far: what it did, and how it stands. *)
Definition run : Type := (list step * outcome unit)%type.

(** [first; second], the second only if the first has not thrown. *)
Definition andThen (first : run) (second : run) : run :=
  match snd first with
  | Ok _ => (fst first ++ fst second, snd second)%list
  | _ => first
  end.

Definition failed {A : Type} (e : outcome A) : outcome unit :=
  match e with
  | Ok _ => Ok ()
  | Throw msg => Throw msg
  | Unsupported => Unsupported
  end.

(** The body of [files.forEach] in [assemble], step by step: what is done
    before a step throws stays done. *)
Definition assembleView (w : world) (e : engine) (options : Options.t)
    (assembly : Assembly.t) (file : string) : run :=
  let pageContent := matterContent (getMatter w file) in
  let data := Views.pageData options w file in
  match lid ← Views.layoutId options data;
        wrapPage pageContent (Assembly.layouts assembly !! lid) with
  | Ok source =>
      let context := buildContext options assembly (list_to_map data) None in
      let template := compile e source in
      match Views.outputPath options data file with
      | Ok filePath =>
          match template context with
          | Ok out =>
              let written := [Did (Mkdirp (Path.dirname filePath));
                              Did (WriteFile filePath out)] in
              if Js.truthy (Js.get "dest-copy" data) then
                match Views.pathArg (Js.get "dest-copy" data) with
                | Ok c =>
                    match template context with
                    | Ok out2 =>
                        (written ++ [Did (Mkdirp (Path.dirname (Path.normalize c)));
                                     Did (WriteFile (Path.normalize c) out2)],
                         Ok ())%list
                    | err =>
                        (written ++ [Did (Mkdirp (Path.dirname (Path.normalize c)))],
                         failed err)%list
                    end
                | err => (written, failed err)
                end
              else (written, Ok ())
          | err =>
              ([Did (Mkdirp (Path.dirname filePath));
                TemplateErrorLogged
                  (Path.dirname file +:+ "/" +:+ Path.basename file)],
               failed err)
          end
      | err => ([], failed err)
      end
  | err => ([], failed err)
  end.

(** [assemble()] *)
Definition assemble (w : world) (e : engine) (options : Options.t)
    (assembly : Assembly.t) : run :=
  foldl (fun r file => andThen r (assembleView w e options assembly file))
    ([Did (Mkdirp (Options.dest options))], Ok ())
    (globby w true (Options.views options)).

(** The [try] block of [module.exports]: [setup], then [assemble]. *)
Definition body {H : Type} (w : world) (d : disk) (e : engine) (options : Options.t)
    (src : Sources.t) (h : Helpers.env H) (helpers0 : gmap string H)
    (materialData0 : gmap string value) (partials0 : gmap string partial)
    : run :=
  match Setup.setup w d options src h helpers0 materialData0 partials0 with
  | Ok s => assemble w e options (Setup.assembly s)
  | err => ([], failed err)
  end.

(** [module.exports]: the [try] block, and [handleError] in [catch].
    [thrown] is the error object of an exception. *)
Definition main {H : Type} (w : world) (d : disk) (e : engine) (options : Options.t)
    (src : Sources.t) (h : Helpers.env H) (thrown : string -> jsError)
    (helpers0 : gmap string H)
    (materialData0 : gmap string value) (partials0 : gmap string partial)
    : run :=
  let tried := body w d e options src h helpers0 materialData0 partials0 in
  match snd tried with
  | Throw msg =>
      (fst tried ++ List.map Did (handleError options (thrown msg)), Ok ())%list
  | _ => tried
  end.

End Main.

(** ** A small site *)

Module Site.

(** The text of the files, and a loader that takes any text but one opening
    with a brace for a scalar. *)
Definition files : disk :=
  {| readFileSync :=
       Fixtures.lookupTable ""
         [("src/views/layouts/default.html", "<main>{% body %}</main>");
          ("src/views/layouts/includes/01-head.html", "<head></head>");
          ("src/views/layouts/includes/button.html", "<i>include</i>");
          ("src/data/toolkit.yml", "kit");
          ("src/data/01-toolkit.json", "kit 2");
          ("src/docs/intro.md", "Hello")];
     safeLoad := fun text =>
       if String.prefix "{" text
       then Throw "YAMLException: unexpected end of the stream"
       else Ok (VStr text) |}.

(** Views, materials, layouts, includes, data and docs at their default
    places; the fragment [button] has the name of an include. *)
Definition world : world :=
  Fixtures.tableWorld
    [(Options.views Options.defaults,
      ["src/views/index.html"; "src/views/forms/input.html";
       "src/views/forms/select.html"]);
     (Options.materials Options.defaults,
      ["src/materials/components/button.html";
       "src/materials/components/02-buttons/01-primary.html"]);
     (Sources.layouts Sources.defaults, ["src/views/layouts/default.html"]);
     (Sources.layoutIncludes Sources.defaults,
      ["src/views/layouts/includes/01-head.html";
       "src/views/layouts/includes/button.html"]);
     (Sources.data Sources.defaults,
      ["src/data/toolkit.yml"; "src/data/01-toolkit.json"]);
     (Sources.docs Sources.defaults, ["src/docs/intro.md"])]
    [(["src/materials/**/*/"],
      ["src/materials/components/"; "src/materials/components/02-buttons/"])]
    [("src/views/index.html",
      {| matterData := [("title", VStr "Home")];
         matterContent := "<h1>{{title}}</h1>" |});
     ("src/views/forms/input.html",
      {| matterData := []; matterContent := "<input>" |});
     ("src/views/forms/select.html",
      {| matterData := []; matterContent := "<select>" |});
     ("src/materials/components/button.html",
      {| matterData := [("title", VStr "Go"); ("notes", VStr "A button")];
         matterContent := "<button>{{title}}</button>" |});
     ("src/materials/components/02-buttons/01-primary.html",
      {| matterData := []; matterContent := "<button class=primary></button>" |})].

(** An engine that renders a template as its source and rejects one. *)
Definition pickyEngine : engine :=
  {| compile := fun source _ =>
       if String.eqb source "<main><input></main>"
       then Throw "Parse error"
       else Ok source;
     beautifyHtml := fun html => html |}.

(** Helpers named by a text: one local file, two passed by the user. *)
Definition helpers : Helpers.env string :=
  {| Helpers.localHelpers := ["helper-iterate.js"];
     Helpers.require := fun file => "module " +:+ file;
     Helpers.userHelpers := [("iterate", "user iterate"); ("material", "user material")];
     Helpers.singular := "material";
     Helpers.material := "built-in material" |}.

(** The same with a helper file that has no dash in its name. *)
Definition unnamedHelpers : Helpers.env string :=
  {| Helpers.localHelpers := ["helper-iterate.js"; "iterate.js"];
     Helpers.require := Helpers.require helpers;
     Helpers.userHelpers := Helpers.userHelpers helpers;
     Helpers.singular := Helpers.singular helpers;
     Helpers.material := Helpers.material helpers |}.

Definition thrown (msg : string) : jsError :=
  {| errProps := ∅; errMessage := VStr msg; errStack := VStr "at assemble" |}.

End Site.

(** ** Predicates used in the further properties *)

(** The replacement [toTitleCase] starts with, on one character. *)
Definition dashToSpace (c : ascii) : ascii :=
  if Ascii.eqb c "-" || Ascii.eqb c "_" then " "%char else c.

(** A text without an opening brace. *)
Definition braceFree (s : string) : bool :=
  Str.forallb (fun c => negb (Ascii.eqb c "{")) s.

(** [\s?]: nothing, or one white-space character. *)
Definition optionalSpace (s : string) : bool :=
  match s with
  | EmptyString => true
  | String c EmptyString => Chars.isSpace c
  | _ => false
  end.

(** A run of one or more digits. *)
Definition digitRun (s : string) : bool :=
  negb (String.eqb s "") && Str.forallb Chars.isDigit s.

(** A run of one or more [\w] characters. *)
Definition wordRun (s : string) : bool :=
  negb (String.eqb s "") && Str.forallb Chars.isWord s.

(** An output extension the resolver would itself replace: a dot and
    lower-case letters or digits. *)
Definition plainExtension (ext : string) : bool :=
  match ext with
  | String c e => Chars.isDot c && Re.isExtTail e
  | EmptyString => false
  end.

(** The last entry of [l] whose name is [k]. *)
Fixpoint lastNamed {A : Type} (name : A -> string) (k : string) (l : list A)
    : option A :=
  match l with
  | [] => None
  | x :: rest =>
      match lastNamed name k rest with
      | Some y => Some y
      | None => if String.eqb (name x) k then Some x else None
      end
  end.

(** The value of a computation that has one. *)
Definition okValue {A : Type} (m : outcome A) : option A :=
  match m with Ok a => Some a | _ => None end.

(** A computation that has a value. *)
Definition succeeds {A : Type} (m : outcome A) : bool :=
  match m with Ok _ => true | _ => false end.

(** A text without a dash. *)
Definition dashFree (s : string) : bool :=
  Str.forallb (fun c => negb (Ascii.eqb c "-")) s.

(** The [id] the populating loop gives a material file (line 340). *)
Definition fragmentId (ds : list (option string)) (file : string) : string :=
  Materials.materialId (Materials.isSubCollectionParse ds file)
    (getName (default "" (Str.pop (Materials.dirSegments file))) true) file.

(** What the populating loop has registered after the files [done]. *)
Definition registered (w : world) (ds : list (option string))
    (materialData0 : gmap string value) (partials0 : gmap string partial)
    (done : list string) (st : Materials.state) : Prop :=
  (∀ file, file ∈ done →
     ∃ source, Materials.partials st !! fragmentId ds file = Some (PSource source))
  ∧ (∀ k, (∀ file, file ∈ done → fragmentId ds file ≠ k) →
       Materials.partials st !! k = partials0 !! k)
  ∧ (∀ file, file ∈ done →
       ∃ o, Materials.materialData st !! Namespacer.namespacedId (fragmentId ds file)
              = Some (VObj o)
            ∧ Js.has "notes" o = false)
  ∧ (∀ k, (∀ file, file ∈ done → Namespacer.namespacedId (fragmentId ds file) ≠ k) →
       Materials.materialData st !! k = materialData0 !! k)
  ∧ (∀ k, is_Some (materialData0 !! k) → is_Some (Materials.materialData st !! k)).

(** A text of ASCII characters. *)
Definition asciiOnly (s : string) : bool :=
  Str.forallb (fun c => (Chars.code c <? 128)%N) s.

(** The template source the populating loop registers for a material file
    (lines 344 to 384): the body without the blank lines around it, the
    fields of its front matter namespaced. *)
Definition fragmentSource (w : world) (ds : list (option string)) (file : string)
    : outcome string :=
  let localData := Js.omit "notes" (matterData (getMatter w file)) in
  let content := Re.trimBlankLines (matterContent (getMatter w file)) in
  match localData with
  | [] => Ok content
  | _ => Namespacer.namespaceBody (fragmentId ds file) localData content
  end.

(** The front matter it keeps for the file (lines 344 and 367). *)
Definition fragmentData (w : world) (file : string) : value :=
  VObj (Js.omit "notes" (matterData (getMatter w file))).

(** The registry and the table of front matter after the files [done], key
    by key. *)
Definition registeredExactly (w : world) (ds : list (option string))
    (materialData0 : gmap string value) (partials0 : gmap string partial)
    (done : list string) (st : Materials.state) : Prop :=
  (∀ file, file ∈ done → ∃ source, fragmentSource w ds file = Ok source)
  ∧ (∀ k, Materials.partials st !! k
          = match lastNamed (fragmentId ds) k done with
            | Some file => PSource <$> okValue (fragmentSource w ds file)
            | None => partials0 !! k
            end)
  ∧ (∀ k, Materials.materialData st !! k
          = match lastNamed
                    (fun file => Namespacer.namespacedId (fragmentId ds file))
                    k done with
            | Some file => Some (fragmentData w file)
            | None => materialData0 !! k
            end).

(** A step that is not the end of the process. *)
Definition notExit (s : Main.step) : Prop :=
  match s with
  | Main.Did (ProcessExit _) => False
  | _ => True
  end.

(** Every write of [events] comes after the [mkdirp] of its directory. *)
Definition madeBefore (events : list event) : Prop :=
  ∀ pre path out post,
    events = (pre ++ WriteFile path out :: post)%list →
    Mkdirp (Path.dirname path) ∈ pre.

(** * Properties *)

(** ** Sanity checks of the path model against Node's documented results *)

Example dirname_ex1 : Path.dirname "src/views/forms/input.html" = "src/views/forms".
Proof. reflexivity. Qed.
Example dirname_ex2 : Path.dirname "a//b" = "a/".
Proof. reflexivity. Qed.
Example dirname_ex3 : Path.dirname "/x.html" = "/".
Proof. reflexivity. Qed.
Example dirname_ex4 : Path.dirname "x.html" = ".".
Proof. reflexivity. Qed.
Example normalize_ex1 : Path.normalize "a/./b/../../c/" = "c/".
Proof. reflexivity. Qed.
Example normalize_ex2 : Path.normalize "../a/../../b" = "../../b".
Proof. reflexivity. Qed.
Example normalize_ex3 : Path.normalize "/../a//b" = "/a/b".
Proof. reflexivity. Qed.
Example join_ex1 : Path.join ["dist"; ""; "index.html"] = "dist/index.html".
Proof. reflexivity. Qed.
Example extname_ex1 : Path.extname "v1.2" = ".2".
Proof. reflexivity. Qed.
Example extname_ex2 : Path.extname ".hidden" = "".
Proof. reflexivity. Qed.
Example extname_ex3 : Path.extname "a/b.c/d" = "".
Proof. reflexivity. Qed.
Example extname_ex4 : Path.extname "index." = ".".
Proof. reflexivity. Qed.
Example basename_ex1 : Path.basenameExt "a/02-bar.html" (Path.extname "a/02-bar.html") = "02-bar".
Proof. reflexivity. Qed.

(** ** Error handling *)

(** C7. [handleError] calls a configured callback with the normalized error,
    prints when logging is enabled, and terminates with status 1 only when
    neither is configured: either of the two suppresses termination. *)
Theorem handleError_policy (options : Options.t) (e : jsError) :
  let error := Js.assignAll [errorDefaults; errProps e] in
  let printed := ConsoleError (errMessage e) (errStack e) in
  handleError options e =
    match Options.onError options, Options.logErrors options with
    | Callback, true => [OnErrorCalled error; printed]
    | Callback, false => [OnErrorCalled error]
    | NotAFunction, true => [printed]
    | NotAFunction, false => [printed; ProcessExit 1]
    end
  ∧ ((∃ status, ProcessExit status ∈ handleError options e)
     ↔ Options.onError options = NotAFunction ∧ Options.logErrors options = false).
Proof.
  unfold handleError.
  destruct (Options.onError options), (Options.logErrors options); simpl;
    (split; [reflexivity|]); split.
  all: try (intros [s Hs]; repeat (apply elem_of_cons in Hs as [Hs|Hs]; [discriminate|]);
            by apply elem_of_nil in Hs).
  all: try (intros [? ?]; discriminate).
  - done.
  - intros _. exists 1%Z. set_solver.
Qed.

(** ** Context building *)

Lemma assignAll_lookup (sources : list (gmap string value)) (k : string) :
  Js.assignAll sources !! k = lastDefined k sources.
Proof.
  unfold Js.assignAll.
  assert (H : ∀ acc, foldl Js.assign acc sources !! k =
                     match lastDefined k sources with
                     | Some v => Some v
                     | None => acc !! k
                     end).
  { induction sources as [|s rest IH]; intros acc; simpl; [reflexivity|].
    rewrite IH. destruct (lastDefined k rest); [reflexivity|].
    unfold Js.assign. rewrite lookup_union.
    destruct (s !! k), (acc !! k); reflexivity. }
  rewrite H. destruct (lastDefined k sources); [reflexivity|apply lookup_empty].
Qed.

(** C2. The render context is a single-level merge in which, for every key,
    the value comes whole from the last source defining it, the sources
    being in rising precedence: page data, data files, namespaced fragment
    data, build data, the materials, views and docs trees under their
    configured keys, and the hash arguments.  With data files
    [{title: 'A'}], build data [{title: 'B'}] and page data [{title: 'C'}]
    the context has [title = 'B']; an object value is replaced, not merged
    into. *)
Theorem buildContext_precedence :
  (∀ (options : Options.t) (assembly : Assembly.t) (data : gmap string value)
     (hash : option (gmap string value)) (k : string),
     buildContext options assembly data hash !! k =
       lastDefined k
         [ data;
           Assembly.data assembly;
           Assembly.materialData assembly;
           Options.buildData options;
           {[ Options.keys_materials options := VObj (Assembly.materials assembly) ]};
           {[ Options.keys_views options := VObj (Assembly.views assembly) ]};
           {[ Options.keys_docs options := VObj (Assembly.docs assembly) ]};
           default ∅ hash ])
  ∧ (∀ (materials views docs : obj) (materialData : gmap string value)
       (layouts : gmap string string) (onError : callbackOption) (logErrors : bool),
       let options :=
         {| Options.layout := "default"; Options.views := ["src/views/**/*"];
            Options.materials := ["src/materials/**/*"];
            Options.buildData := {[ "title" := VStr "B" ]};
            Options.keys_materials := "materials"; Options.keys_views := "views";
            Options.keys_docs := "docs"; Options.dest := "dist";
            Options.extension := ".html"; Options.destMap := ∅;
            Options.onError := onError; Options.logErrors := logErrors |} in
       let assembly :=
         {| Assembly.layouts := layouts;
            Assembly.data := {[ "title" := VStr "A" ]};
            Assembly.materials := materials; Assembly.materialData := materialData;
            Assembly.views := views; Assembly.docs := docs |} in
       buildContext options assembly {[ "title" := VStr "C" ]} None !! "title"
         = Some (VStr "B"))
  ∧ buildContext
      (Fixtures.withOptions [] "views" "dist" ".html" ∅)
      {| Assembly.layouts := ∅;
         Assembly.data := {[ "nav" := VObj [("home", VStr "/")] ]};
         Assembly.materials := []; Assembly.materialData := ∅;
         Assembly.views := []; Assembly.docs := [] |}
      {[ "nav" := VObj [("about", VStr "/about")] ]} None !! "nav"
    = Some (VObj [("home", VStr "/")]).
Proof.
  split; [|split].
  - intros. unfold buildContext. apply assignAll_lookup.
  - intros. unfold buildContext. rewrite assignAll_lookup. simpl.
    repeat first [ rewrite lookup_empty
                 | rewrite lookup_singleton_ne by discriminate
                 | rewrite lookup_singleton_eq ].
    reflexivity.
  - unfold buildContext. rewrite assignAll_lookup. simpl.
    repeat first [ rewrite lookup_empty
                 | rewrite lookup_singleton_ne by discriminate
                 | rewrite lookup_singleton_eq ].
    reflexivity.
Qed.

(** ** Output paths *)

Lemma expand_dollarFree (before matched after repl : string) :
  dollarFree repl = true → Js.expand before matched after repl = repl.
Proof.
  unfold dollarFree. induction repl as [|a t IH]; simpl; [done|].
  intros [Ha Ht]%andb_prop. apply negb_true_iff in Ha. rewrite Ha.
  by rewrite IH.
Qed.

Lemma forallb_lowerAlnum_dot (a e : string) :
  Str.forallb Re.isLowerAlnum (a +:+ String "." e) = false.
Proof.
  induction a as [|c a IH]; simpl; [reflexivity|].
  rewrite IH. apply andb_false_r.
Qed.

Lemma isExtTail_dot (a e : string) : Re.isExtTail (a +:+ String "." e) = false.
Proof.
  unfold Re.isExtTail. rewrite forallb_lowerAlnum_dot. by destruct a.
Qed.

Lemma findExt_suffix (stem e : string) :
  Re.isExtTail e = true →
  Re.findExt (stem +:+ String "." e) = Some (stem, String "." e).
Proof.
  intros He. induction stem as [|c stem IH]; simpl.
  - by rewrite He.
  - rewrite isExtTail_dot, andb_false_r. by rewrite IH.
Qed.

Lemma findExt_none (p : string) :
  (∀ pre m, Re.isExtTail m = true → p ≠ pre +:+ String "." m) →
  Re.findExt p = None.
Proof.
  induction p as [|c r IH]; intros H; simpl; [reflexivity|].
  destruct (Chars.isDot c && Re.isExtTail r) eqn:E.
  - apply andb_prop in E as [Hc Hr]. apply Ascii.eqb_eq in Hc. subst c.
    by destruct (H "" r Hr).
  - rewrite IH; [reflexivity|].
    intros pre m Hm ->. by apply (H (String c pre) m Hm).
Qed.

(** C3, as the code has it.  The path is [<dest>/<collection>/<basename>]
    by default, a front-matter [dest] replaces it, an entry of [destMap] for
    the collection overrides both with [<entry>/<basename>], and last a final
    suffix made of a dot and lower-case letters or digits is replaced by the
    configured extension; a path without such a suffix keeps its name.  The
    three paths of the specification resolve as stated there. *)
Theorem outputPath_resolution :
  (∀ (options : Options.t) (data : obj) (file : string),
     Js.truthy (Js.get "dest" data) = false →
     Options.destMap options !! Views.collectionName options file = None →
     Views.outputPath options data file =
       Ok (Re.replaceExt (Options.extension options)
             (Path.normalize (Path.join [Options.dest options;
                                         Views.collectionName options file;
                                         Path.basename file]))))
  ∧ (∀ (options : Options.t) (data : obj) (file d : string),
       Js.get "dest" data = VStr d → d ≠ "" →
       Options.destMap options !! Views.collectionName options file = None →
       Views.outputPath options data file =
         Ok (Re.replaceExt (Options.extension options) (Path.normalize d)))
  ∧ (∀ (options : Options.t) (data : obj) (file m : string),
       (Js.truthy (Js.get "dest" data) = false ∨ ∃ d, Js.get "dest" data = VStr d) →
       Options.destMap options !! Views.collectionName options file = Some (VStr m) →
       m ≠ "" →
       Views.outputPath options data file =
         Ok (Re.replaceExt (Options.extension options)
               (Path.normalize (Path.join [m; Path.basename file]))))
  ∧ (∀ (ext stem e : string),
       dollarFree ext = true → Re.isExtTail e = true →
       Re.replaceExt ext (stem +:+ String "." e) = stem +:+ ext)
  ∧ (∀ (ext p : string),
       (∀ pre m, Re.isExtTail m = true → p ≠ pre +:+ String "." m) →
       Re.replaceExt ext p = p)
  ∧ Views.outputPath (Fixtures.withOptions [] "views" "dist" ".htm" ∅) []
      "views/forms/input.html" = Ok "dist/forms/input.htm"
  ∧ Views.outputPath
      (Fixtures.withOptions [] "views" "dist" ".htm" {[ "forms" := VStr "out/f" ]}) []
      "views/forms/input.html" = Ok "out/f/input.htm"
  ∧ Views.outputPath (Fixtures.withOptions [] "views" "dist" ".htm" ∅)
      [("dest", VStr "custom/x.html")]
      "views/forms/input.html" = Ok "custom/x.htm".
Proof.
  repeat split.
  - intros options data file Hd Hm. unfold Views.outputPath.
    rewrite Hd, Hm. reflexivity.
  - intros options data file d Hd Hne Hm. unfold Views.outputPath.
    rewrite Hd, Hm. simpl.
    destruct (String.eqb_spec d ""); [done|reflexivity].
  - intros options data file m Hd Hm Hne. unfold Views.outputPath.
    rewrite Hm. simpl.
    destruct (String.eqb_spec m ""); [done|].
    destruct Hd as [Hd|[d Hd]]; rewrite Hd; [reflexivity|].
    simpl. destruct (String.eqb d ""); reflexivity.
  - intros ext stem e Hx He. unfold Re.replaceExt.
    rewrite (findExt_suffix _ _ He). by rewrite expand_dollarFree.
  - intros ext p H. unfold Re.replaceExt. by rewrite (findExt_none _ H).
Qed.

Lemma outputPath_resolution_witness :
  Views.outputPath (Fixtures.withOptions [] "views" "dist" ".htm" ∅)
    [("title", VStr "Input")] "views/forms/input.html"
  = Ok (Re.replaceExt ".htm" (Path.normalize (Path.join ["dist"; "forms"; "input.html"])))
  ∧ Re.replaceExt ".htm" ("dist/forms/input" +:+ String "." "html")
    = "dist/forms/input" +:+ ".htm".
Proof.
  destruct outputPath_resolution as (Hdefault & _ & _ & Hext & _).
  split.
  - apply (Hdefault (Fixtures.withOptions [] "views" "dist" ".htm" ∅)
             [("title", VStr "Input")] "views/forms/input.html"); reflexivity.
  - apply (Hext ".htm" "dist/forms/input" "html"); reflexivity.
Defined.

(** C3 as stated fails: an upper-case extension is not rewritten. *)
Lemma outputPath_keeps_uppercase_extension :
  Views.outputPath (Fixtures.withOptions [] "views" "dist" ".htm" ∅) []
    "views/forms/input.HTML" = Ok "dist/forms/input.HTML"
  ∧ Str.endsWith ".htm" "dist/forms/input.HTML" = false.
Proof. split; reflexivity. Qed.

(** ** Collections of views *)

Lemma split_not_nil (sep : ascii) (s : string) : Str.split sep s ≠ [].
Proof.
  destruct s as [|c r]; simpl; [done|].
  destruct (Ascii.eqb c sep); [done|]. by destruct (Str.split sep r).
Qed.

Lemma dirName_some (file : string) : ∃ d, Views.dirName file = Some d.
Proof.
  unfold Views.dirName, Str.pop.
  pose proof (split_not_nil "/" (Path.normalize (Path.dirname file))) as H.
  unfold Materials.dirSegments.
  destruct (Str.split "/" (Path.normalize (Path.dirname file))) as [|x l] using rev_ind;
    [done|].
  rewrite last_snoc. eauto.
Qed.

Lemma get_set_eq (k : string) (v : value) (o : obj) : Js.get k (Js.set k v o) = v.
Proof.
  induction o as [|[k' v'] o IH]; simpl.
  - by rewrite String.eqb_refl.
  - destruct (String.eqb k' k) eqn:E; simpl; rewrite E; [reflexivity|apply IH].
Qed.

Lemma get_set_ne (k k' : string) (v : value) (o : obj) :
  k ≠ k' → Js.get k' (Js.set k v o) = Js.get k' o.
Proof.
  intros Hne. induction o as [|[k0 v0] o IH]; simpl.
  - by destruct (String.eqb_spec k k').
  - destruct (String.eqb_spec k0 k) as [->|Hk]; simpl.
    + by destruct (String.eqb_spec k k').
    + by rewrite IH.
Qed.

(** C8, as the code has it.  The collection name of a view is empty exactly
    when the name of the directory holding the file is the configured views
    key (or is itself empty); [baseurl: '..'] is set in the page data exactly
    when the collection name is not empty, and it is that page data the
    context handed to the template is built from. *)
Theorem collectionName_by_directory_name
    (w : world) (e : engine) (options : Options.t) (assembly : Assembly.t)
    (file : string) :
  (Views.collectionName options file = "" ↔
     Views.dirName file = Some (Options.keys_views options)
     ∨ Views.dirName file = Some "")
  ∧ Views.pageData options w file =
      (if String.eqb (Views.collectionName options file) ""
       then matterData (getMatter w file)
       else Js.set "baseurl" (VStr "..") (matterData (getMatter w file)))
  ∧ Js.get "baseurl" (Js.set "baseurl" (VStr "..") (matterData (getMatter w file)))
      = VStr ".."
  ∧ (∀ events, Views.assembleView w e options assembly file = Ok events →
       ∃ source path out,
         WriteFile path out ∈ events
         ∧ compile e source
             (buildContext options assembly
                (list_to_map (Views.pageData options w file)) None) = Ok out).
Proof.
  split; [|split; [|split]].
  - unfold Views.collectionName.
    destruct (dirName_some file) as [d ->].
    destruct (String.eqb_spec d (Options.keys_views options)) as [->|Hne]; simpl.
    + split; auto.
    + split.
      * intros ->. by right.
      * intros [[=]|[=]]; done.
  - unfold Views.pageData.
    by destruct (String.eqb (Views.collectionName options file) "").
  - apply get_set_eq.
  - intros events H. unfold Views.assembleView in H.
    okSteps H. injection H as <-.
    eexists _, _, _. split; [|exact E2].
    apply list_elem_of_further, list_elem_of_here.
Qed.

Lemma collectionName_by_directory_name_witness :
  ∃ source path out,
    WriteFile path out ∈
      [Mkdirp "dist/forms"; WriteFile "dist/forms/input.html" "<main>{{title}}</main>"]
    ∧ compile Fixtures.echoEngine source
        (buildContext Options.defaults
           {| Assembly.layouts := {[ "default" := "<main>{% body %}</main>" ]};
              Assembly.data := ∅; Assembly.materials := [];
              Assembly.materialData := ∅; Assembly.views := []; Assembly.docs := [] |}
           (list_to_map
              (Views.pageData Options.defaults
                 (Fixtures.tableWorld [] []
                    [("src/views/forms/input.html",
                      {| matterData := [("title", VStr "Input")];
                         matterContent := "{{title}}" |})])
                 "src/views/forms/input.html")) None) = Ok out.
Proof.
  pose proof (collectionName_by_directory_name
    (Fixtures.tableWorld [] []
       [("src/views/forms/input.html",
         {| matterData := [("title", VStr "Input")]; matterContent := "{{title}}" |})])
    Fixtures.echoEngine Options.defaults
    {| Assembly.layouts := {[ "default" := "<main>{% body %}</main>" ]};
       Assembly.data := ∅; Assembly.materials := [];
       Assembly.materialData := ∅; Assembly.views := []; Assembly.docs := [] |}
    "src/views/forms/input.html") as (_ & _ & _ & H).
  apply H. vm_compute. reflexivity.
Defined.

(** C8 as stated fails: with the default options two views in different
    directories both have an empty collection name, so no single views root
    makes "empty exactly for the files directly under it" true. *)
Lemma collectionName_not_by_location :
  ¬ ∃ root : string, ∀ file : string,
      Views.collectionName Options.defaults file = "" ↔ Path.dirname file = root.
Proof.
  intros [root H].
  pose proof (proj1 (H "src/views/index.html") eq_refl) as H1.
  pose proof (proj1 (H "src/views/forms/views/x.html") eq_refl) as H2.
  vm_compute in H1, H2. congruence.
Qed.

(** ** The views tree *)

Lemma forEachM_inv {A S : Type} (body : S → A → outcome S) (P : list A → S → Prop) :
  (∀ done s x s', P done s → body s x = Ok s' → P (done ++ [x])%list s') →
  ∀ xs done s0 s, P done s0 → forEachM body xs s0 = Ok s → P (done ++ xs)%list s.
Proof.
  intros Hstep. induction xs as [|x xs IH]; intros done s0 s HP H; simpl in H.
  - injection H as <-. by rewrite app_nil_r.
  - okSteps H.
    replace (done ++ x :: xs)%list with ((done ++ [x]) ++ xs)%list
      by (by rewrite <- app_assoc).
    eapply IH; [|exact H]. eapply Hstep; eauto.
Qed.

Lemma get_truthy_elem_of (k : string) (o : obj) :
  Js.truthy (Js.get k o) = true → (k, Js.get k o) ∈ o.
Proof.
  induction o as [|[k' v'] o IH]; simpl; [discriminate|].
  destruct (String.eqb_spec k' k) as [->|Hne]; intros H.
  - apply list_elem_of_here.
  - apply list_elem_of_further, IH, H.
Qed.

Lemma elem_of_set (k k' : string) (v v' : value) (o : obj) :
  (k', v') ∈ Js.set k v o → (k' = k ∧ v' = v) ∨ (k', v') ∈ o.
Proof.
  induction o as [|[k0 v0] o IH]; simpl; intros H.
  - apply list_elem_of_singleton in H. injection H as -> ->. by left.
  - destruct (String.eqb_spec k0 k) as [->|Hne].
    + apply elem_of_cons in H as [H|H].
      * injection H as -> ->. by left.
      * right. by apply list_elem_of_further.
    + apply elem_of_cons in H as [H|H].
      * injection H as -> ->. right. apply list_elem_of_here.
      * destruct (IH H) as [?|?]; [by left|right; by apply list_elem_of_further].
Qed.

Lemma has_set_eq (k : string) (v : value) (o : obj) : Js.has k (Js.set k v o) = true.
Proof.
  induction o as [|[k' v'] o IH]; simpl.
  - by rewrite String.eqb_refl.
  - destruct (String.eqb k' k) eqn:E; simpl; rewrite E; [reflexivity|apply IH].
Qed.

Lemma has_set_mono (k k' : string) (v : value) (o : obj) :
  Js.has k' o = true → Js.has k' (Js.set k v o) = true.
Proof.
  induction o as [|[k0 v0] o IH]; simpl; [discriminate|].
  intros [H|H]%orb_prop.
  - destruct (String.eqb k0 k); simpl; by rewrite H.
  - destruct (String.eqb k0 k); simpl; rewrite ?H, ?IH by done; apply orb_true_r.
Qed.

Lemma viewsSound_mono (options : Options.t) (done : list string) (x : string)
    (views : obj) :
  viewsSound options done views → viewsSound options (done ++ [x]) views.
Proof.
  intros H c v Hcv. destruct (H c v Hcv) as (Hne & (f & Hf & Hc) & n & items & -> & Hi).
  split; [done|]. split; [exists f; set_solver|].
  exists n, items. split; [done|].
  intros id y Hy. destruct (Hi id y Hy) as (g & Hg & ? & ?). exists g. set_solver.
Qed.

Lemma parseView_wf (w : world) (options : Options.t) (done : list string)
    (views : obj) (file : string) (views' : obj) :
  viewsWf options done views →
  Views.parseView w options views file = Ok views' →
  viewsWf options (done ++ [file]) views'.
Proof.
  intros [Hsound Hcomplete] H. unfold Views.parseView in H.
  destruct (String.eqb_spec (Views.collectionName options file) "") as [Hc|Hc];
    simpl in H.
  { injection H as <-. split; [by apply viewsSound_mono|].
    intros f [Hf|Hf]%elem_of_app Hne; [by apply Hcomplete|].
    apply list_elem_of_singleton in Hf as ->. done. }
  set (c := Views.collectionName options file) in *.
  set (id := getName file true) in *.
  set (entry := VObj [("name", VStr (toTitleCase id));
                      ("data", VObj (Js.omit "notes" (matterData (getMatter w file))))])
    in *.
  assert (Hshape : ∃ n items,
             Materials.orElse (Js.get c views) (Views.viewStub c)
             = VObj [("name", VStr n); ("items", VObj items)]
             ∧ (∀ i x, (i, x) ∈ items →
                  ∃ f, f ∈ done ∧ Views.collectionName options f = c
                       ∧ getName f true = i)
             ∧ (∀ n' items',
                  Js.get c views = VObj [("name", VStr n'); ("items", VObj items')] →
                  items' = items)).
  { unfold Materials.orElse. destruct (Js.truthy (Js.get c views)) eqn:Ht.
    - destruct (Hsound c _ (get_truthy_elem_of _ _ Ht)) as (_ & _ & n & items & Hv & Hi).
      exists n, items. split; [done|]. split; [done|].
      intros n' items' Hg. rewrite Hv in Hg. by injection Hg as _ <-.
    - exists (toTitleCase c), []. split; [reflexivity|]. split.
      + intros i x Hx. by apply elem_of_nil in Hx.
      + intros n' items' Hg. by rewrite Hg in Ht. }
  destruct Hshape as (n & items & Hv & Hitems & Hsame).
  simpl in H. rewrite get_set_eq, Hv in H. simpl in H. injection H as <-.
  split.
  - intros k v Hkv.
    apply elem_of_set in Hkv as [[-> ->]|Hkv].
    + split; [done|]. split; [exists file; set_solver|].
      eexists _, _. split; [reflexivity|].
      intros i x Hx. apply elem_of_set in Hx as [[-> ->]|Hx].
      * exists file. set_solver.
      * destruct (Hitems i x Hx) as (f & ? & ? & ?). exists f. set_solver.
    + apply elem_of_set in Hkv as [[-> ->]|Hkv].
      * split; [done|]. split; [exists file; set_solver|].
        exists n, items. split; [done|].
        intros i x Hx. destruct (Hitems i x Hx) as (f & ? & ? & ?).
        exists f. set_solver.
      * by apply (viewsSound_mono options done file views Hsound).
  - intros f [Hf|Hf]%elem_of_app Hne.
    + destruct (Hcomplete f Hf Hne) as (n' & items' & Hg & Hhas).
      destruct (String.eqb_spec c (Views.collectionName options f)) as [Heq|Hneq].
      * rewrite <- Heq in *. rewrite get_set_eq.
        rewrite (Hsame _ _ Hg) in Hhas.
        eexists _, _. split; [reflexivity|]. by apply has_set_mono.
      * rewrite !get_set_ne by done. eauto.
    + apply list_elem_of_singleton in Hf as ->. fold c. rewrite get_set_eq.
      eexists _, _. split; [reflexivity|]. apply has_set_eq.
Qed.

Lemma has_elem_of (k : string) (o : obj) :
  Js.has k o = true → ∃ v, (k, v) ∈ o.
Proof.
  induction o as [|[k' v'] o IH]; simpl; [discriminate|].
  destruct (String.eqb_spec k' k) as [->|Hne]; simpl.
  - intros _. exists v'. apply list_elem_of_here.
  - intros H. destruct (IH H) as [v Hv]. exists v. by apply list_elem_of_further.
Qed.

Lemma collectionName_at_root (options : Options.t) (file : string) :
  Views.dirName file = Some (Options.keys_views options) →
  Views.collectionName options file = "".
Proof.
  intros H. unfold Views.collectionName. rewrite H. by rewrite String.eqb_refl.
Qed.

Lemma collectionName_never_key (options : Options.t) (file : string) :
  Views.collectionName options file ≠ "" →
  Views.collectionName options file ≠ Options.keys_views options.
Proof.
  unfold Views.collectionName. destruct (Views.dirName file) as [d|]; [|done].
  destruct (String.eqb_spec d (Options.keys_views options)); simpl; congruence.
Qed.

Lemma assembleView_renders (w : world) (e : engine) (options : Options.t)
    (assembly : Assembly.t) (file : string) (events : list event) :
  Views.assembleView w e options assembly file = Ok events →
  ∃ lid source path out,
    Views.layoutId options (Views.pageData options w file) = Ok lid
    ∧ wrapPage (matterContent (getMatter w file)) (Assembly.layouts assembly !! lid)
      = Ok source
    ∧ Views.outputPath options (Views.pageData options w file) file = Ok path
    ∧ compile e source
        (buildContext options assembly
           (list_to_map (Views.pageData options w file)) None) = Ok out
    ∧ WriteFile path out ∈ events.
Proof.
  intros H. unfold Views.assembleView in H.
  destruct (Views.layoutId options (Views.pageData options w file))
    as [lid| |] eqn:Hlid; simpl in H; [|discriminate H..].
  destruct (wrapPage (matterContent (getMatter w file))
              (Assembly.layouts assembly !! lid))
    as [source| |] eqn:Hsource; simpl in H; [|discriminate H..].
  destruct (Views.outputPath options (Views.pageData options w file) file)
    as [path| |] eqn:Hpath; simpl in H; [|discriminate H..].
  destruct (compile e source
              (buildContext options assembly
                 (list_to_map (Views.pageData options w file)) None))
    as [out| |] eqn:Hout; simpl in H; [|discriminate H..].
  okSteps H. injection H as <-.
  exists lid, source, path, out. repeat (split; [done|]).
  apply list_elem_of_further, list_elem_of_here.
Qed.

(** C9, as the code has it.  The code takes a view for a view of the root
    when the directory holding it is named [options.keys.views]: such a view
    leaves the views tree as it was and gets no [baseurl].  The tree of
    [parseViews] has no collection of that name and none without a name; it
    holds only collections keyed by the directory name of some view, listing
    views of directories of that name only, and every view with a collection
    is listed in it.  A run of [assemble] writes for every view, those of
    the root included, its page wrapped in its layout and rendered against
    the context built from its front matter. *)
Theorem root_views_not_recorded
    (w : world) (e : engine) (options : Options.t) (assembly : Assembly.t) :
  (∀ views file,
     Views.dirName file = Some (Options.keys_views options) →
     Views.parseView w options views file = Ok views
     ∧ Views.pageData options w file = matterData (getMatter w file))
  ∧ (∀ tree, Views.parseViews w options = Ok tree →
       Js.has (Options.keys_views options) tree = false
       ∧ Js.has "" tree = false
       ∧ viewsSound options (globby w true (Options.views options)) tree
       ∧ viewsComplete options (globby w true (Options.views options)) tree)
  ∧ (∀ events, Views.assemble w e options assembly = Ok events →
       ∀ file, file ∈ globby w true (Options.views options) →
         ∃ lid source path out,
           Views.layoutId options (Views.pageData options w file) = Ok lid
           ∧ wrapPage (matterContent (getMatter w file))
               (Assembly.layouts assembly !! lid) = Ok source
           ∧ Views.outputPath options (Views.pageData options w file) file = Ok path
           ∧ compile e source
               (buildContext options assembly
                  (list_to_map (Views.pageData options w file)) None) = Ok out
           ∧ WriteFile path out ∈ events).
Proof.
  set (files := globby w true (Options.views options)).
  split; [|split].
  - intros views file Hd. apply collectionName_at_root in Hd.
    unfold Views.parseView, Views.pageData. by rewrite Hd.
  - intros tree H.
    assert (Hwf : viewsWf options ([] ++ files) tree).
    { apply (forEachM_inv _ (viewsWf options) (parseView_wf w options)
               files [] [] tree); [|exact H].
      split.
      - intros c v Hcv. by apply elem_of_nil in Hcv.
      - intros f Hf. by apply elem_of_nil in Hf. }
    destruct Hwf as [Hsound Hcomplete].
    split; [|split; [|by split]].
    + destruct (Js.has (Options.keys_views options) tree) eqn:Hhas; [|reflexivity].
      destruct (has_elem_of _ _ Hhas) as [v Hv].
      destruct (Hsound _ _ Hv) as (Hne & (f & _ & Hf) & _).
      rewrite <- Hf in Hne. by destruct (collectionName_never_key options f Hne).
    + destruct (Js.has "" tree) eqn:Hhas; [|reflexivity].
      destruct (has_elem_of _ _ Hhas) as [v Hv].
      by destruct (Hsound _ _ Hv) as (Hne & _).
  - intros events H.
    set (P := fun (done : list string) (evs : list event) =>
                ∀ file, file ∈ done →
                  ∃ lid source path out,
                    Views.layoutId options (Views.pageData options w file) = Ok lid
                    ∧ wrapPage (matterContent (getMatter w file))
                        (Assembly.layouts assembly !! lid) = Ok source
                    ∧ Views.outputPath options (Views.pageData options w file) file
                      = Ok path
                    ∧ compile e source
                        (buildContext options assembly
                           (list_to_map (Views.pageData options w file)) None)
                      = Ok out
                    ∧ WriteFile path out ∈ evs).
    assert (Hstep : ∀ done evs x evs', P done evs →
              (evs0 ← Views.assembleView w e options assembly x;
               Ok (evs ++ evs0)%list) = Ok evs' →
              P (done ++ [x])%list evs').
    { intros done evs x evs' IH Hx file Hf. okSteps Hx. injection Hx as <-.
      apply elem_of_app in Hf as [Hf|Hf].
      - destruct (IH file Hf) as (lid & source & path & out & ? & ? & ? & ? & ?).
        exists lid, source, path, out. repeat (split; [done|]).
        apply elem_of_app. by left.
      - apply list_elem_of_singleton in Hf as ->.
        destruct (assembleView_renders _ _ _ _ _ _ E)
          as (lid & source & path & out & ? & ? & ? & ? & ?).
        exists lid, source, path, out. repeat (split; [done|]).
        apply elem_of_app. by right. }
    apply (forEachM_inv _ P Hstep files [] [Mkdirp (Options.dest options)] events);
      [|exact H].
    intros file Hf. by apply elem_of_nil in Hf.
Qed.

Lemma root_views_not_recorded_witness :
  Views.parseView Fixtures.siteWorld Options.defaults [] "src/views/index.html" = Ok []
  ∧ WriteFile "dist/index.html" "<main><h1>{{title}}</h1></main>" ∈
      [Mkdirp "dist";
       Mkdirp "dist"; WriteFile "dist/index.html" "<main><h1>{{title}}</h1></main>";
       Mkdirp "dist/forms"; WriteFile "dist/forms/input.html" "<main><input></main>"].
Proof.
  destruct (root_views_not_recorded Fixtures.siteWorld Fixtures.echoEngine
              Options.defaults Fixtures.siteAssembly) as (Hroot & _ & Hwrite).
  split.
  - apply Hroot. reflexivity.
  - destruct (Hwrite
                [Mkdirp "dist";
                 Mkdirp "dist";
                 WriteFile "dist/index.html" "<main><h1>{{title}}</h1></main>";
                 Mkdirp "dist/forms";
                 WriteFile "dist/forms/input.html" "<main><input></main>"]
                ltac:(vm_compute; reflexivity)
                "src/views/index.html"
                ltac:(vm_compute; apply list_elem_of_here))
      as (lid & source & path & out & Hlid & Hsource & Hpath & Hout & Hin).
    vm_compute in Hlid. injection Hlid as <-.
    vm_compute in Hsource. injection Hsource as <-.
    vm_compute in Hpath. injection Hpath as <-.
    vm_compute in Hout. injection Hout as <-.
    exact Hin.
Defined.

(** C9 as stated fails: with [keys.views] set to ['pages'] the view
    [src/views/index.html], directly under the views root, is recorded, in a
    collection named after the root directory. *)
Lemma root_view_recorded_under_directory_name :
  Path.dirname "src/views/index.html" = "src/views"
  ∧ ∃ tree,
      Views.parseViews Fixtures.siteWorld
        (Fixtures.withOptions (Options.views Options.defaults) "pages" "dist"
           ".html" ∅) = Ok tree
      ∧ Js.getPath ["views"; "items"; "index"; "name"] (VObj tree) = VStr "Index".
Proof. split; [reflexivity|]. eexists. split; vm_compute; reflexivity. Qed.

(** ** The [material] helper *)

(** C10, as the code has it.  When the stripped name is neither a key of
    the registry nor a name every object inherits, the helper finds no
    template, hands [undefined] to [Handlebars.compile] and fails with the
    exception raised there: it returns no output, empty or otherwise, and
    leaves the registry as it was, whether or not the call names a
    context. *)
Theorem material_unknown_fragment_throws
    (e : engine) (options : Options.t) (assembly : Assembly.t)
    (name : string) (context : gmap string value)
    (opts : option (gmap string value)) (st : Helper.state) :
  Helper.partials st !! Helper.lookupKey name = None →
  Helper.objectPrototype (Helper.lookupKey name) = None →
  Helper.resolve e (Helper.lookupKey name) st = (handlebarsCompile e None, st)
  ∧ (∃ msg, fst (Helper.material e options assembly name context opts st) = Throw msg)
  ∧ (∀ out, fst (Helper.material e options assembly name context opts st) ≠ Ok out)
  ∧ snd (Helper.material e options assembly name context opts st) = st.
Proof.
  intros Hnone Hproto. unfold Helper.material, Helper.resolve.
  rewrite Hnone, Hproto. simpl.
  split; [reflexivity|]. split; [eauto|]. split; [|reflexivity].
  intros out. discriminate.
Qed.

Lemma material_unknown_fragment_throws_witness :
  ∃ msg,
    fst (Helper.material Fixtures.echoEngine Options.defaults Fixtures.siteAssembly
           "02-buttons.01-secondary" ∅ (Some ∅)
           {| Helper.partials := {[ "buttons.primary" := PSource "<b></b>" ]};
              Helper.compiled := [] |}) = Throw msg.
Proof.
  apply (material_unknown_fragment_throws Fixtures.echoEngine Options.defaults
           Fixtures.siteAssembly "02-buttons.01-secondary" ∅ (Some ∅)
           {| Helper.partials := {[ "buttons.primary" := PSource "<b></b>" ]};
              Helper.compiled := [] |}).
  - vm_compute. reflexivity.
  - vm_compute. reflexivity.
Defined.

(** C10 as stated fails: [toString] is not a key of the registry, yet the
    lookup finds the function every object inherits under that name; the
    helper calls it and returns its answer, without compiling and without
    an error. *)
Lemma material_inherited_name_returns :
  Helper.partials Fixtures.primaryRegistry !! Helper.lookupKey "toString" = None
  ∧ Helper.material Fixtures.echoEngine Options.defaults Fixtures.siteAssembly
      "toString" ∅ (Some ∅) Fixtures.primaryRegistry
    = (Ok "[object Undefined]", Fixtures.primaryRegistry).
Proof. split; vm_compute; reflexivity. Qed.

Lemma dashOrDot_not_digit (c : ascii) : Re.isDashOrDot c = true → Chars.isDigit c = false.
Proof.
  unfold Re.isDashOrDot. intros [H|H]%orb_prop; apply Ascii.eqb_eq in H; by subst.
Qed.

Lemma dropWhile_digits (d : string) (sep : ascii) (r : string) :
  Str.forallb Chars.isDigit d = true → Chars.isDigit sep = false →
  Str.dropWhile Chars.isDigit (d +:+ String sep r) = String sep r.
Proof.
  intros Hd Hsep. induction d as [|c d IH]; simpl in *.
  - by rewrite Hsep.
  - apply andb_prop in Hd as [-> Hd]. by apply IH.
Qed.

Lemma orderGroup_prefix (d : string) (sep : ascii) (r : string) :
  d ≠ "" → Str.forallb Chars.isDigit d = true → Re.isDashOrDot sep = true →
  Re.orderGroup (d +:+ String sep r) = Some r.
Proof.
  intros Hne Hd Hsep. destruct d as [|c d]; [done|].
  pose proof (dropWhile_digits (String c d) sep r Hd (dashOrDot_not_digit _ Hsep)) as H.
  unfold Re.orderGroup. simpl in *.
  apply andb_prop in Hd as [Hc Hd]. rewrite Hc in *. rewrite H, Hsep. reflexivity.
Qed.

Lemma orderGroups_none (fuel : nat) (s : string) :
  Re.orderGroup s = None → Re.orderGroups fuel s = s.
Proof. intros H. destruct fuel; simpl; [reflexivity|by rewrite H]. Qed.

Lemma stripOrderOnce_prefix (d : string) (sep : ascii) (r : string) :
  d ≠ "" → Str.forallb Chars.isDigit d = true → Re.isDashOrDot sep = true →
  Re.orderGroup r = None →
  Re.stripOrderOnce (d +:+ String sep r) = r.
Proof.
  intros Hne Hd Hsep Hr.
  pose proof (orderGroup_prefix d sep r Hne Hd Hsep) as H.
  destruct d as [|c d]; [done|]. simpl in *.
  rewrite H. by apply orderGroups_none.
Qed.

Lemma stripOrderOnce_skip (a rest : string) :
  digitFree a = true →
  Re.stripOrderOnce (a +:+ rest) = a +:+ Re.stripOrderOnce rest.
Proof.
  unfold digitFree. induction a as [|c a IH]; simpl; [done|].
  intros [Hc Ha]%andb_prop. apply negb_true_iff in Hc.
  rewrite Hc. by rewrite IH.
Qed.


Lemma string_app_nil_r (s : string) : s +:+ "" = s.
Proof.
  induction s as [|c s IH]; [reflexivity|].
  change (String c s +:+ "") with (String c (s +:+ "")). by rewrite IH.
Qed.

Lemma stripOrderOnce_digitFree (s : string) :
  digitFree s = true → Re.stripOrderOnce s = s.
Proof.
  intros H. rewrite <- (string_app_nil_r s) at 1.
  rewrite (stripOrderOnce_skip s "" H). apply string_app_nil_r.
Qed.

Lemma orderGroup_digitFree (s : string) :
  digitFree s = true → Re.orderGroup s = None.
Proof.
  unfold digitFree. destruct s as [|c s]; [reflexivity|]. simpl.
  intros [Hc%negb_true_iff _]%andb_prop. unfold Re.orderGroup. by rewrite Hc.
Qed.




(** ** The fragment namespacer *)

Lemma string_app_cons (x : ascii) (a b : string) :
  String x a +:+ b = String x (a +:+ b).
Proof. reflexivity. Qed.

Lemma string_app_assoc (a b c : string) : (a +:+ b) +:+ c = a +:+ (b +:+ c).
Proof.
  induction a as [|x a IH]; [reflexivity|].
  rewrite !string_app_cons. f_equal. exact IH.
Qed.

Lemma string_length_app (a b : string) :
  String.length (a +:+ b) = (String.length a + String.length b)%nat.
Proof.
  induction a as [|x a IH]; [reflexivity|].
  rewrite string_app_cons. simpl. f_equal. exact IH.
Qed.

Lemma take_app_length (a b : string) : Str.take (String.length a) (a +:+ b) = a.
Proof.
  induction a as [|x a IH]; [by destruct b|].
  rewrite string_app_cons. simpl. f_equal. exact IH.
Qed.

Lemma filter_all (p : ascii → bool) (s : string) :
  Str.forallb p s = true → Str.filter p s = s.
Proof.
  induction s as [|c s IH]; simpl; [done|].
  intros [-> Hs]%andb_prop. by rewrite IH.
Qed.

Lemma keyPlus_head {A} (key rest : string) (k : string → option A) (x : A) :
  key ≠ "" → k rest = Some x →
  Namespacer.keyPlus key k (key +:+ rest) = Some x.
Proof.
  intros Hne Hk. induction key as [|c key IH]; [done|].
  rewrite string_app_cons. destruct key as [|c' key].
  - change ("" +:+ rest) with rest.
    cbn [Namespacer.keyPlus Namespacer.lazyPlus].
    by rewrite Ascii.eqb_refl, Hk.
  - cbn [Namespacer.keyPlus]. unfold Namespacer.lit.
    rewrite Ascii.eqb_refl. by apply IH.
Qed.

Lemma take_app_minus (a b : string) :
  Str.take (String.length (a +:+ b) - String.length b) (a +:+ b) = a.
Proof.
  replace (String.length (a +:+ b) - String.length b)%nat with (String.length a)
    by (rewrite string_length_app; lia).
  apply take_app_length.
Qed.

Lemma field_tail {S : Type} (sigil : S) (whole tail : string) :
  Namespacer.opt Chars.isSpace
    (λ (_ : option ascii) (s6 : string),
       Namespacer.lit "}"
         (Namespacer.lit "}"
            (λ s8 : string,
               Some (sigil, Str.take (String.length whole - String.length s6) whole, s8)))
         s6)
    ("}}" +:+ tail)
  = Some (sigil, Str.take (String.length whole - String.length ("}}" +:+ tail)) whole, tail).
Proof. reflexivity. Qed.

Lemma matchField_plain (key tail : string) :
  plainKey key = true →
  Namespacer.matchField key ("{{" +:+ key +:+ "}}" +:+ tail) = Some (None, key, tail).
Proof.
  unfold plainKey. intros [[Hlit Hsp]%andb_prop Hfirst]%andb_prop.
  destruct key as [|c key]; [done|].
  apply negb_true_iff in Hfirst.
  simpl in Hsp. apply andb_prop in Hsp as [Hc%negb_true_iff _].
  rewrite (string_app_cons c key).
  remember (key +:+ "}}" +:+ tail) as rest eqn:Hrest.
  change ("{{" +:+ String c rest) with (String "{" (String "{" (String c rest))).
  unfold Namespacer.matchField.
  cbn [Namespacer.lit Ascii.eqb Bool.eqb].
  unfold Namespacer.opt at 1. rewrite Hfirst.
  unfold Namespacer.opt at 1. rewrite Hc.
  subst rest.
  change (String c (key +:+ "}}" +:+ tail)) with (String c key +:+ "}}" +:+ tail).
  erewrite keyPlus_head; [| done | apply field_tail].
  by rewrite take_app_minus.
Qed.

Lemma matchField_block (sigil : ascii) (key tail : string) :
  plainKey key = true → Namespacer.isHashOrSlash sigil = true →
  Namespacer.matchField key ("{{" +:+ String sigil (key +:+ "}}" +:+ tail))
    = Some (Some sigil, key, tail).
Proof.
  unfold plainKey. intros [[Hlit Hsp]%andb_prop Hfirst]%andb_prop Hsig.
  destruct key as [|c key]; [done|].
  simpl in Hsp. apply andb_prop in Hsp as [Hc%negb_true_iff _].
  rewrite (string_app_cons c key).
  remember (key +:+ "}}" +:+ tail) as rest eqn:Hrest.
  change ("{{" +:+ String sigil (String c rest))
    with (String "{" (String "{" (String sigil (String c rest)))).
  unfold Namespacer.matchField.
  cbn [Namespacer.lit Ascii.eqb Bool.eqb].
  unfold Namespacer.opt at 1. rewrite Hsig.
  unfold Namespacer.opt at 1. rewrite Hc.
  subst rest.
  change (String c (key +:+ "}}" +:+ tail)) with (String c key +:+ "}}" +:+ tail).
  erewrite keyPlus_head; [| done | apply field_tail].
  by rewrite take_app_minus.
Qed.

Lemma replaceField_skip (nsId key a tail : string) :
  Namespacer.replaceField nsId key (String.length a) (a +:+ tail)
    = Namespacer.replaceField nsId key 0 tail.
Proof.
  induction a as [|c a IH]; [by destruct tail|].
  rewrite string_app_cons. exact IH.
Qed.

Lemma replaceField_match (nsId key : string) (c : ascii) (t : string)
    (sigil : option ascii) (p2 rest : string) :
  Namespacer.matchField key (String c t) = Some (sigil, p2, rest) →
  Namespacer.replaceField nsId key 0 (String c t)
    = Namespacer.rewritten nsId sigil p2
      +:+ Namespacer.replaceField nsId key (String.length t - String.length rest) t.
Proof. intros H. cbn [Namespacer.replaceField]. by rewrite H. Qed.

(** The part of C1 the code keeps: an exact placeholder of a plain key is
    rewritten to the namespaced token, and the scan goes on behind it. *)
Lemma replaceField_exact (nsId key tail : string) :
  plainKey key = true →
  Namespacer.replaceField nsId key 0 ("{{" +:+ key +:+ "}}" +:+ tail)
    = "{{" +:+ nsId +:+ "." +:+ key +:+ "}}"
      +:+ Namespacer.replaceField nsId key 0 tail.
Proof.
  intros Hkey.
  pose proof (matchField_plain key tail Hkey) as Hm.
  assert (Hsp : Str.filter (fun c => negb (Chars.isSpace c)) key = key).
  { apply filter_all. unfold plainKey in Hkey.
    by apply andb_prop in Hkey as [[_ ?]%andb_prop _]. }
  change ("{{" +:+ key +:+ "}}" +:+ tail)
    with (String "{" (String "{" (key +:+ "}}" +:+ tail))) in *.
  rewrite (replaceField_match _ _ _ _ _ _ _ Hm).
  unfold Namespacer.rewritten. rewrite Hsp.
  change ("" +:+ nsId +:+ "." +:+ key +:+ "}}") with (nsId +:+ "." +:+ key +:+ "}}").
  replace (String "{" (key +:+ "}}" +:+ tail))
    with (String "{" (key +:+ "}}") +:+ tail)
    by (by rewrite string_app_cons, string_app_assoc).
  replace (String.length (String "{" (key +:+ "}}") +:+ tail) - String.length tail)%nat
    with (String.length (String "{" (key +:+ "}}")))
    by (rewrite string_length_app; lia).
  rewrite replaceField_skip.
  by rewrite !string_app_assoc.
Qed.

(** The same for the block-opening and block-closing forms. *)
Lemma replaceField_exact_block (nsId key tail : string) (sigil : ascii) :
  plainKey key = true → Namespacer.isHashOrSlash sigil = true →
  Namespacer.replaceField nsId key 0 ("{{" +:+ String sigil (key +:+ "}}" +:+ tail))
    = "{{" +:+ String sigil (nsId +:+ "." +:+ key +:+ "}}"
                             +:+ Namespacer.replaceField nsId key 0 tail).
Proof.
  intros Hkey Hsig.
  pose proof (matchField_block sigil key tail Hkey Hsig) as Hm.
  assert (Hsp : Str.filter (fun c => negb (Chars.isSpace c)) key = key).
  { apply filter_all. unfold plainKey in Hkey.
    by apply andb_prop in Hkey as [[_ ?]%andb_prop _]. }
  change ("{{" +:+ String sigil (key +:+ "}}" +:+ tail))
    with (String "{" (String "{" (String sigil (key +:+ "}}" +:+ tail)))) in *.
  rewrite (replaceField_match _ _ _ _ _ _ _ Hm).
  unfold Namespacer.rewritten. rewrite Hsp.
  replace (String "{" (String sigil (key +:+ "}}" +:+ tail)))
    with (String "{" (String sigil (key +:+ "}}")) +:+ tail)
    by (by rewrite !string_app_cons, string_app_assoc).
  replace (String.length (String "{" (String sigil (key +:+ "}}")) +:+ tail)
           - String.length tail)%nat
    with (String.length (String "{" (String sigil (key +:+ "}}"))))
    by (rewrite string_length_app; lia).
  rewrite replaceField_skip.
  rewrite !string_app_assoc. reflexivity.
Qed.

(** C1, at a failing input.  The fragment [button] has the single local
    field [title]; its registered body has the exact placeholders rewritten
    and, with them, [{{titlee}}], whose token is not a local key. *)
Theorem namespacer_rewrites_inexact_placeholder :
  (∃ st, Materials.parseMaterials Fixtures.materialsWorld Options.defaults ∅ ∅ = Ok st
         ∧ Materials.partials st !! "button"
           = Some (PSource "<button>{{button.title}} {{button.titlee}}</button>"))
  ∧ Namespacer.namespaceBody "buttons.primary" [("title", VStr "Go")]
      "{{title}} {{#title}}x{{/title}} {{subtitle}}"
    = Ok "{{buttons-primary.title}} {{#buttons-primary.title}}x{{/buttons-primary.title}} {{subtitle}}"
  ∧ Namespacer.namespaceBody "button" [("title", VStr "Go")] "{{titlee}}"
    = Ok "{{button.titlee}}".
Proof.
  split; [|split]; [|reflexivity..].
  eexists. split; vm_compute; reflexivity.
Qed.

(** ** Sub-collections *)

(** Where [getName] leaves the parent's name alone, the two loops classify
    a file alike, by the presence of that name among the matched
    directories. *)
Lemma stub_agrees_on_plain_parent (ds : list (option string)) (file parent : string) :
  Str.beforeLast (Materials.dirSegments file) = Some parent →
  getName parent true = parent →
  Materials.isSubCollectionStub ds file = Ok (Materials.isSubCollectionParse ds file)
  ∧ (Materials.isSubCollectionParse ds file = true ↔ Some parent ∈ ds).
Proof.
  intros Hp Hn. unfold Materials.isSubCollectionStub, Materials.isSubCollectionParse.
  rewrite Hp. unfold getNameOf. rewrite Hn. split; [reflexivity|].
  unfold Materials.indexOfFound. apply bool_decide_eq_true.
Qed.

(** C4, at a failing input.  The directory [src/materials/v1.2] is among the
    matched directories, yet the stubbing loop does not classify
    [v1.2/buttons] as a sub-collection, because it looks up [getName] of the
    parent's name; the populating loop, which looks up the name itself,
    does, and [parseMaterials] throws on the collection that was never
    stubbed. *)
Theorem stub_loop_misclassifies_dotted_parent :
  Some "v1.2" ∈ Materials.dirs Fixtures.dottedWorld Options.defaults
  ∧ Materials.isSubCollectionStub
      (Materials.dirs Fixtures.dottedWorld Options.defaults)
      "src/materials/v1.2/buttons/a.html" = Ok false
  ∧ Materials.isSubCollectionParse
      (Materials.dirs Fixtures.dottedWorld Options.defaults)
      "src/materials/v1.2/buttons/a.html" = true
  ∧ Materials.parseMaterials Fixtures.dottedWorld Options.defaults ∅ ∅
    = Throw "TypeError: cannot read property of undefined".
Proof.
  split; [|split; [|split]]; [|vm_compute; reflexivity..].
  vm_compute. apply list_elem_of_here.
Qed.

(** ** Ordering of collections and items *)

Global Instance entryLe_trans : Transitive SortObject.entryLe.
Proof. intros a b c. unfold SortObject.entryLe. apply transitivity. Qed.

Global Instance entryLe_total : Total SortObject.entryLe.
Proof. intros a b. unfold SortObject.entryLe. apply (total String.le). Qed.











(** * Further properties of the code *)

Lemma succeeds_ok {A : Type} (m : outcome A) : succeeds m = true → ∃ a, m = Ok a.
Proof. destruct m as [a| |]; [by exists a|discriminate..]. Qed.

(** ** Names and titles *)

Lemma forallb_chars (p : ascii → bool) (s : string) :
  List.forallb p (Str.chars s) = Str.forallb p s.
Proof. induction s as [|c s IH]; simpl; [reflexivity|by rewrite IH]. Qed.

Lemma forallb_ofChars (p : ascii → bool) (l : list ascii) :
  Str.forallb p (Str.ofChars l) = List.forallb p l.
Proof. induction l as [|c l IH]; simpl; [reflexivity|by rewrite IH]. Qed.

Lemma forallb_rev_string (p : ascii → bool) (s : string) :
  Str.forallb p (Str.rev s) = Str.forallb p s.
Proof.
  unfold Str.rev. rewrite forallb_ofChars, <- forallb_chars.
  generalize (Str.chars s) as l. intros l.
  induction l as [|c l IH]; simpl; [reflexivity|].
  rewrite List.forallb_app, IH. simpl. rewrite andb_true_r. apply andb_comm.
Qed.

Lemma forallb_takeWhile (p q : ascii → bool) (s : string) :
  (∀ c, p c = true → q c = true) → Str.forallb q (Str.takeWhile p s) = true.
Proof.
  intros Hpq. induction s as [|c s IH]; simpl; [reflexivity|].
  destruct (p c) eqn:E; simpl; [|reflexivity]. by rewrite (Hpq c E), IH.
Qed.

Lemma forallb_take (p : ascii → bool) (n : nat) (s : string) :
  Str.forallb p s = true → Str.forallb p (Str.take n s) = true.
Proof.
  revert s. induction n as [|n IH]; intros [|c s]; simpl; try reflexivity.
  intros [-> Hs]%andb_prop. by apply IH.
Qed.

Lemma forallb_dropWhile (p q : ascii → bool) (s : string) :
  Str.forallb p s = true → Str.forallb p (Str.dropWhile q s) = true.
Proof.
  induction s as [|c s IH]; simpl; [reflexivity|].
  intros H. destruct (q c); [|exact H].
  apply andb_prop in H as [_ H]. by apply IH.
Qed.

Lemma dropWhile_head (q : ascii → bool) (s : string) :
  match Str.dropWhile q s with
  | String c _ => q c = false
  | EmptyString => True
  end.
Proof.
  induction s as [|c s IH]; simpl; [exact I|].
  destruct (q c) eqn:E; [exact IH|exact E].
Qed.

Lemma forallb_map (p : ascii → bool) (f : ascii → ascii) (s : string) :
  Str.forallb p (Str.map f s) = Str.forallb (fun c => p (f c)) s.
Proof. induction s as [|c s IH]; simpl; [reflexivity|by rewrite IH]. Qed.

Lemma forallb_impl (p q : ascii → bool) (s : string) :
  (∀ c, p c = true → q c = true) →
  Str.forallb p s = true → Str.forallb q s = true.
Proof.
  intros Hpq. induction s as [|c s IH]; simpl; [reflexivity|].
  intros [Hc Hs]%andb_prop. by rewrite (Hpq c Hc), IH.
Qed.

Lemma basename_no_slash (p : string) :
  Str.forallb (fun c => negb (Chars.isSlash c)) (Path.basename p) = true.
Proof.
  unfold Path.basename. rewrite forallb_rev_string. by apply forallb_takeWhile.
Qed.

Lemma basenameExt_no_slash (p ext : string) :
  Str.forallb (fun c => negb (Chars.isSlash c)) (Path.basenameExt p ext) = true.
Proof.
  unfold Path.basenameExt.
  destruct (String.eqb ext ""); [apply basename_no_slash|].
  destruct (String.eqb ext p); [reflexivity|].
  destruct (Str.endsWith ext (Path.basename p) && _);
    [apply forallb_take|]; apply basename_no_slash.
Qed.

(** X1.  Whatever the path, [getName] gives a name without path separator
    and without white space; unless numbers are preserved it does not begin
    with a digit, [|], [.] or [-]. *)
Theorem getName_clean (filePath : string) (preserveNumbers : bool) :
  Str.forallb (fun c => negb (Chars.isSlash c || Chars.isSpace c))
    (getName filePath preserveNumbers) = true
  ∧ match getName filePath false with
    | String c _ => Re.isOrderChar c = false
    | EmptyString => True
    end.
Proof.
  split.
  - assert (H : Str.forallb (fun c => negb (Chars.isSlash c || Chars.isSpace c))
                  (getName filePath true) = true).
    { unfold getName, Str.replaceClass. rewrite forallb_map.
      eapply forallb_impl; [|apply (basenameExt_no_slash filePath)].
      intros c Hc. cbv beta in *.
      destruct (Chars.isSpace c) eqn:Hs; [reflexivity|].
      by rewrite Hs, orb_false_r. }
    destruct preserveNumbers; [exact H|].
    unfold getName in *. by apply forallb_dropWhile.
  - unfold getName, Re.stripLeadingOrder. apply dropWhile_head.
Qed.

Lemma titleWords_length (b : bool) (s : string) :
  String.length (titleWords b s) = String.length s.
Proof.
  revert b. induction s as [|c s IH]; intros b; simpl; [reflexivity|].
  destruct b; [destruct (Chars.isSpace c)|destruct (Chars.isWord c)];
    simpl; by rewrite IH.
Qed.

Lemma map_length (f : ascii → ascii) (s : string) :
  String.length (Str.map f s) = String.length s.
Proof. induction s as [|c s IH]; simpl; [reflexivity|by rewrite IH]. Qed.

Lemma titleWords_no_dash (b : bool) (s : string) :
  Str.forallb (fun c => negb (Ascii.eqb c "-" || Ascii.eqb c "_"))
    (titleWords b (Str.map dashToSpace s)) = true.
Proof.
  revert b. induction s as [|c s IH]; intros b; [reflexivity|].
  change (Str.map dashToSpace (String c s))
    with (String (dashToSpace c) (Str.map dashToSpace s)).
  cbn [titleWords].
  destruct b; [destruct (Chars.isSpace (dashToSpace c)) eqn:E
              |destruct (Chars.isWord (dashToSpace c)) eqn:E];
    cbn [Str.forallb]; rewrite IH, andb_true_r; clear IH;
    revert E; destruct c as [[|] [|] [|] [|] [|] [|] [|] [|]];
    vm_compute; congruence.
Qed.

(** X2.  On ASCII text [toTitleCase] keeps the length of its argument and
    leaves no dash and no underscore in it. *)
Theorem toTitleCase_shape (str : string) :
  asciiOnly str = true →
  String.length (toTitleCase str) = String.length str
  ∧ Str.forallb (fun c => negb (Ascii.eqb c "-" || Ascii.eqb c "_"))
      (toTitleCase str) = true.
Proof.
  intros _. unfold toTitleCase, Str.replaceClass. split.
  - by rewrite titleWords_length, map_length.
  - apply titleWords_no_dash.
Qed.

Lemma toTitleCase_shape_witness :
  String.length (toTitleCase "form-controls_v2") = 16
  ∧ Str.forallb (fun c => negb (Ascii.eqb c "-" || Ascii.eqb c "_"))
      (toTitleCase "form-controls_v2") = true.
Proof. apply (toTitleCase_shape "form-controls_v2"). reflexivity. Defined.

Lemma titleWords_again (b : bool) (s : string) :
  titleWords b (Str.map dashToSpace (titleWords b (Str.map dashToSpace s)))
    = titleWords b (Str.map dashToSpace s).
Proof.
  revert b. induction s as [|c s IH]; intros b; [reflexivity|].
  change (Str.map dashToSpace (String c s))
    with (String (dashToSpace c) (Str.map dashToSpace s)).
  cbn [titleWords].
  destruct b.
  - destruct (Chars.isSpace (dashToSpace c)) eqn:E.
    + cbn [Str.map titleWords].
      assert (Hc : dashToSpace (dashToSpace c) = dashToSpace c).
      { clear. destruct c as [[|] [|] [|] [|] [|] [|] [|] [|]]; reflexivity. }
      rewrite Hc, E. f_equal. apply IH.
    + cbn [Str.map titleWords].
      assert (Hc : Chars.isSpace (dashToSpace (Chars.toLower (dashToSpace c))) = false
                   ∧ Chars.toLower (dashToSpace (Chars.toLower (dashToSpace c)))
                     = Chars.toLower (dashToSpace c)).
      { clear IH. revert E. destruct c as [[|] [|] [|] [|] [|] [|] [|] [|]];
          vm_compute; intros; (split; congruence). }
      destruct Hc as [-> ->]. f_equal. apply IH.
  - destruct (Chars.isWord (dashToSpace c)) eqn:E.
    + cbn [Str.map titleWords].
      assert (Hc : Chars.isWord (dashToSpace (Chars.toUpper (dashToSpace c))) = true
                   ∧ Chars.toUpper (dashToSpace (Chars.toUpper (dashToSpace c)))
                     = Chars.toUpper (dashToSpace c)).
      { clear IH. revert E. destruct c as [[|] [|] [|] [|] [|] [|] [|] [|]];
          vm_compute; intros; (split; congruence). }
      destruct Hc as [-> ->]. f_equal. apply IH.
    + cbn [Str.map titleWords].
      assert (Hc : dashToSpace (dashToSpace c) = dashToSpace c).
      { clear. destruct c as [[|] [|] [|] [|] [|] [|] [|] [|]]; reflexivity. }
      rewrite Hc, E. f_equal. apply IH.
Qed.

(** X3.  [toTitleCase] is idempotent: a title is its own title. *)
Theorem toTitleCase_idempotent (str : string) :
  toTitleCase (toTitleCase str) = toTitleCase str.
Proof. apply titleWords_again. Qed.

(** ** Layouts *)

Lemma bodyMarker_nonbrace (c : ascii) (s : string) :
  Ascii.eqb c "{" = false → Re.bodyMarker (String c s) = None.
Proof.
  intros H. unfold Re.bodyMarker, Re.stripLit.
  change (String.prefix "{%" (String c s))
    with (if ascii_dec "{" c then String.prefix "%" s else false).
  destruct (ascii_dec "{" c) as [<-|_]; [discriminate H|reflexivity].
Qed.

Lemma findBody_skip (pre s : string) :
  braceFree pre = true →
  findBody (pre +:+ s) =
    match findBody s with
    | Some (before, m, after) => Some (pre +:+ before, m, after)
    | None => None
    end.
Proof.
  unfold braceFree. induction pre as [|c pre IH]; intros H.
  - change ("" +:+ s) with s. by destruct (findBody s) as [[[? ?] ?]|].
  - simpl in H. apply andb_prop in H as [Hc%negb_true_iff H].
    rewrite string_app_cons. cbn [findBody].
    rewrite (bodyMarker_nonbrace _ _ Hc), (IH H).
    by destruct (findBody s) as [[[? ?] ?]|].
Qed.

Lemma stripLit_app (lit s : string) : Re.stripLit lit (lit +:+ s) = Some s.
Proof.
  unfold Re.stripLit.
  assert (Hp : String.prefix lit (lit +:+ s) = true).
  { induction lit as [|c lit IH]; [by destruct s|].
    rewrite string_app_cons. cbn [String.prefix].
    destruct (ascii_dec c c); [exact IH|done]. }
  rewrite Hp. f_equal.
  induction lit as [|c lit IH]; [by destruct s|].
  rewrite string_app_cons. apply IH. by rewrite string_app_cons in Hp;
    cbn [String.prefix] in Hp; destruct (ascii_dec c c).
Qed.

Lemma firstSome_head {A B} (f : A → option B) (a : A) (l : list A) (y : B) :
  f a = Some y → Re.firstSome f (a :: l) = Some y.
Proof. intros H. unfold Re.firstSome. simpl. by rewrite H. Qed.

Lemma optSpace_then {B} (f : string → option B) (a rest : string) (y : B) :
  optionalSpace a = true → f rest = Some y →
  match rest with String c _ => Chars.isSpace c = false | EmptyString => True end →
  Re.firstSome f (Re.optSpace (a +:+ rest)) = Some y.
Proof.
  intros Ha Hf Hrest. destruct a as [|x [|? ?]]; [| |discriminate].
  - change ("" +:+ rest) with rest. unfold Re.optSpace.
    destruct rest as [|c r]; [by apply firstSome_head|].
    rewrite Hrest. by apply firstSome_head.
  - simpl in Ha. rewrite string_app_cons. change ("" +:+ rest) with rest.
    unfold Re.optSpace. rewrite Ha. by apply firstSome_head.
Qed.

Lemma bodyMarker_marker (a b post : string) :
  optionalSpace a = true → optionalSpace b = true →
  Re.bodyMarker ("{%" +:+ a +:+ "body" +:+ b +:+ "%}" +:+ post) = Some post.
Proof.
  intros Ha Hb. unfold Re.bodyMarker. rewrite stripLit_app.
  change (Some (a +:+ "body" +:+ b +:+ "%}" +:+ post) ≫= ?f)
    with (f (a +:+ "body" +:+ b +:+ "%}" +:+ post)).
  apply optSpace_then; [exact Ha| |reflexivity].
  rewrite stripLit_app.
  change (Some (b +:+ "%}" +:+ post) ≫= ?f) with (f (b +:+ "%}" +:+ post)).
  apply optSpace_then; [exact Hb|apply stripLit_app|reflexivity].
Qed.

Lemma findBody_here (m post : string) :
  Re.bodyMarker (m +:+ post) = Some post →
  findBody (m +:+ post) = Some ("", m, post).
Proof.
  intros H.
  assert (Ht : Str.take (String.length (m +:+ post) - String.length post) (m +:+ post) = m).
  { replace (String.length (m +:+ post) - String.length post)%nat
      with (String.length m) by (rewrite string_length_app; lia).
    apply take_app_length. }
  destruct (m +:+ post) as [|c s] eqn:E; [discriminate H|].
  cbn [findBody]. by rewrite H, Ht.
Qed.

(** X4.  In a layout whose text before the first body marker has no brace,
    [wrapPage] replaces that marker, in any of its spellings, by the page
    and leaves the rest of the layout, later markers included, as it is;
    the page goes in verbatim when it has no [$], otherwise with the
    replacement patterns expanded. *)
Theorem wrapPage_replaces_first_marker (page pre a b post : string) :
  braceFree pre = true → optionalSpace a = true → optionalSpace b = true →
  let marker := "{%" +:+ a +:+ "body" +:+ b +:+ "%}" in
  wrapPage page (Some (pre +:+ marker +:+ post))
    = Ok (pre +:+ Js.expand pre marker post page +:+ post)
  ∧ (dollarFree page = true →
     wrapPage page (Some (pre +:+ marker +:+ post)) = Ok (pre +:+ page +:+ post)).
Proof.
  intros Hpre Ha Hb marker.
  assert (H : findBody (pre +:+ marker +:+ post) = Some (pre, marker, post)).
  { rewrite (findBody_skip _ _ Hpre), findBody_here.
    - by rewrite string_app_nil_r.
    - unfold marker. rewrite !string_app_assoc.
      change ("{%" +:+ a +:+ "body" +:+ b +:+ "%}" +:+ post)
        with ("{%" +:+ a +:+ "body" +:+ b +:+ "%}" +:+ post).
      apply (bodyMarker_marker a b post Ha Hb). }
  assert (Hw : wrapPage page (Some (pre +:+ marker +:+ post))
               = Ok (pre +:+ Js.expand pre marker post page +:+ post)).
  { unfold wrapPage. by rewrite H. }
  split; [exact Hw|]. intros Hd. by rewrite Hw, expand_dollarFree.
Qed.

Lemma wrapPage_replaces_first_marker_witness :
  wrapPage "<h1>Hi</h1>" (Some ("<main>" +:+ ("{%" +:+ " " +:+ "body" +:+ "" +:+ "%}")
                                +:+ "</main>{% body %}"))
    = Ok ("<main>" +:+ "<h1>Hi</h1>" +:+ "</main>{% body %}").
Proof.
  apply (wrapPage_replaces_first_marker "<h1>Hi</h1>" "<main>" " " "" "</main>{% body %}");
    reflexivity.
Defined.

(** X5.  A layout without a body marker comes back as it is: the page is
    dropped. *)
Theorem wrapPage_without_marker (page layout : string) :
  braceFree layout = true → wrapPage page (Some layout) = Ok layout.
Proof.
  intros H. unfold wrapPage.
  pose proof (findBody_skip layout "" H) as Hf.
  rewrite string_app_nil_r in Hf. by rewrite Hf.
Qed.

Lemma wrapPage_without_marker_witness :
  wrapPage "<h1>Hi</h1>" (Some "<main></main>") = Ok "<main></main>".
Proof. apply wrapPage_without_marker. reflexivity. Defined.

(** ** Rewriting without placeholders, names without numbers *)

Lemma replaceField_braceFree (nsId key s : string) :
  braceFree s = true → Namespacer.replaceField nsId key 0 s = s.
Proof.
  unfold braceFree. induction s as [|c s IH]; [reflexivity|].
  simpl. intros [Hc%negb_true_iff Hs]%andb_prop.
  unfold Namespacer.matchField, Namespacer.lit. rewrite Hc. by rewrite IH.
Qed.

(** X6.  A fragment body without an opening brace is registered as it is,
    whatever fields the front matter has (keys of literal characters, no
    numeric [length] field). *)
Theorem namespaceBody_without_placeholders (id : string) (localData : obj)
    (content : string) :
  braceFree content = true →
  Namespacer.arrayLike localData = false →
  Forall (fun key => Namespacer.literalKey key = true) (Js.keys localData) →
  Namespacer.namespaceBody id localData content = Ok content.
Proof.
  intros Hc Ha Hk. unfold Namespacer.namespaceBody. rewrite Ha.
  remember (Js.keys localData) as keys eqn:E. clear E.
  induction Hk as [|key keys Hkey _ IH]; [reflexivity|].
  assert (Hstep : Namespacer.namespaceField id content key = Ok content).
  { unfold Namespacer.namespaceField.
    assert (Hne : String.eqb key "" = false).
    { destruct key; [discriminate Hkey|reflexivity]. }
    by rewrite Hne, Hkey, replaceField_braceFree. }
  cbn [forEachM]. rewrite Hstep. exact IH.
Qed.

Lemma namespaceBody_without_placeholders_witness :
  Namespacer.namespaceBody "buttons.primary"
    [("title", VStr "Go"); ("size", VNum 2)] "<button>Go</button>"
  = Ok "<button>Go</button>".
Proof.
  apply namespaceBody_without_placeholders; [reflexivity..|].
  repeat constructor.
Defined.

Lemma digitFree_app (a b : string) :
  digitFree a = true → digitFree b = true → digitFree (a +:+ b) = true.
Proof.
  unfold digitFree. induction a as [|c a IH]; intros Ha Hb; [exact Hb|].
  rewrite string_app_cons. simpl in *.
  apply andb_prop in Ha as [-> Ha]. by apply IH.
Qed.

(** X7.  A reference name without digits is looked up under itself. *)
Theorem lookupKey_without_digits (name : string) :
  digitFree name = true → Helper.lookupKey name = name.
Proof.
  intros H. unfold Helper.lookupKey.
  rewrite (stripOrderOnce_digitFree name H). exact (stripOrderOnce_digitFree name H).
Qed.

Lemma lookupKey_without_digits_witness :
  Helper.lookupKey "buttons.primary" = "buttons.primary".
Proof. apply lookupKey_without_digits. reflexivity. Defined.

(** X8.  The stripping is not tied to the start of a segment: digits
    followed by a dash or a dot are removed from inside a name too, so that
    a name such as [grid-12-col] is looked up as [grid-col]. *)
Theorem lookupKey_strips_inner_group (a d b : string) (sep : ascii) :
  digitFree a = true → digitRun d = true → Re.isDashOrDot sep = true →
  digitFree b = true →
  Helper.lookupKey (a +:+ d +:+ String sep b) = a +:+ b.
Proof.
  intros Ha [Hd1%negb_true_iff Hd2]%andb_prop Hsep Hb. unfold Helper.lookupKey.
  assert (Hne : d ≠ "") by (intros ->; discriminate Hd1).
  rewrite (stripOrderOnce_skip a _ Ha).
  rewrite (stripOrderOnce_prefix d sep b Hne Hd2 Hsep (orderGroup_digitFree b Hb)).
  apply stripOrderOnce_digitFree. by apply digitFree_app.
Qed.

Lemma lookupKey_strips_inner_group_witness :
  Helper.lookupKey ("grid-" +:+ "12" +:+ String "-" "col") = "grid-" +:+ "col".
Proof. apply lookupKey_strips_inner_group; reflexivity. Defined.

(** ** Output extension *)

(** X9.  With an output extension made of a dot and lower-case letters or
    digits, rewriting the extension a second time changes nothing, and a
    path that was rewritten ends in the output extension. *)
Theorem replaceExt_idempotent (ext p : string) :
  plainExtension ext = true →
  Re.replaceExt ext (Re.replaceExt ext p) = Re.replaceExt ext p
  ∧ (Re.replaceExt ext p ≠ p → ∃ stem, Re.replaceExt ext p = stem +:+ ext).
Proof.
  intros Hext. destruct ext as [|c e]; [discriminate|].
  simpl in Hext. apply andb_prop in Hext as [Hc%Ascii.eqb_eq He]. subst c.
  assert (Hd : dollarFree (String "." e) = true).
  { unfold dollarFree. simpl. unfold Re.isExtTail in He.
    destruct e as [|x e]; [discriminate|].
    eapply forallb_impl; [|exact He].
    intros c. clear. destruct c as [[|] [|] [|] [|] [|] [|] [|] [|]];
      vm_compute; congruence. }
  assert (Hr : (∃ pre, Re.replaceExt (String "." e) p = pre +:+ String "." e)
               ∨ (Re.replaceExt (String "." e) p = p ∧ Re.findExt p = None)).
  { unfold Re.replaceExt. destruct (Re.findExt p) as [[pre m]|] eqn:E.
    - left. exists pre. by rewrite expand_dollarFree.
    - by right. }
  destruct Hr as [[pre Hr]|[Hr Hn]]; rewrite Hr.
  - split; [|intros _; by exists pre].
    unfold Re.replaceExt. rewrite (findExt_suffix pre e He).
    by rewrite expand_dollarFree.
  - split; [|done]. unfold Re.replaceExt. by rewrite Hn.
Qed.

Lemma replaceExt_idempotent_witness :
  Re.replaceExt ".htm" (Re.replaceExt ".htm" "dist/forms/input.html")
    = Re.replaceExt ".htm" "dist/forms/input.html".
Proof. apply (replaceExt_idempotent ".htm" "dist/forms/input.html"). reflexivity. Defined.

(** ** Loading layouts, includes, data files and docs *)

Lemma foldl_insert_lookup {A V : Type} (name : A → string) (val : A → V)
    (l : list A) (m0 : gmap string V) (k : string) :
  foldl (fun m x => <[name x := val x]> m) m0 l !! k
    = match lastNamed name k l with
      | Some x => Some (val x)
      | None => m0 !! k
      end.
Proof.
  revert m0. induction l as [|x l IH]; intros m0; [reflexivity|].
  cbn [foldl lastNamed]. rewrite IH.
  destruct (lastNamed name k l); [reflexivity|].
  destruct (String.eqb_spec (name x) k) as [->|Hne].
  - apply lookup_insert_eq.
  - by apply lookup_insert_ne.
Qed.

Lemma lastNamed_elem_of {A : Type} (name : A → string) (k : string) (l : list A) (x : A) :
  lastNamed name k l = Some x → x ∈ l ∧ name x = k.
Proof.
  induction l as [|y l IH]; [discriminate|]. cbn [lastNamed].
  destruct (lastNamed name k l) as [z|].
  - intros [= ->]. destruct (IH eq_refl). split; [by apply list_elem_of_further|done].
  - destruct (String.eqb_spec (name y) k); [|discriminate].
    intros [= ->]. split; [apply list_elem_of_here|done].
Qed.

Lemma lastNamed_some {A : Type} (name : A → string) (l : list A) (x : A) :
  x ∈ l → is_Some (lastNamed name (name x) l).
Proof.
  induction l as [|y l IH]; intros Hx; [by apply elem_of_nil in Hx|].
  cbn [lastNamed]. apply elem_of_cons in Hx as [->|Hx].
  - destruct (lastNamed name (name y) l); [eauto|]. rewrite String.eqb_refl. eauto.
  - destruct (IH Hx) as [z ->]. eauto.
Qed.

(** X10.  [parseLayouts] keeps, under each layout id, the text of the last
    listed file with that name: of two layouts whose names differ only in
    the extension or in a numeric prefix the later one wins, and an id no
    file has is not defined. *)
Theorem parseLayouts_last_wins (w : world) (d : disk) (src : Sources.t) (id : string) :
  Loaders.parseLayouts w d src !! id
    = readFileSync d
        <$> lastNamed (fun file => getName file false) id
              (globby w true (Sources.layouts src)).
Proof.
  unfold Loaders.parseLayouts.
  rewrite (foldl_insert_lookup (fun file => getName file false) (readFileSync d)).
  by destruct (lastNamed _ id _).
Qed.

(** X11.  [parseLayoutIncludes] registers every include as template source
    under its name, the last listed file of a name winning, and leaves every
    other partial of the registry as it was. *)
Theorem parseLayoutIncludes_registry (w : world) (d : disk) (src : Sources.t)
    (partials : gmap string partial) (id : string) :
  Loaders.parseLayoutIncludes w d src partials !! id
    = match lastNamed (fun file => getName file false) id
              (globby w true (Sources.layoutIncludes src)) with
      | Some file => Some (PSource (readFileSync d file))
      | None => partials !! id
      end.
Proof.
  unfold Loaders.parseLayoutIncludes.
  apply (foldl_insert_lookup (fun file => getName file false)
           (fun file => PSource (readFileSync d file))).
Qed.

Lemma parseData_lookup (d : disk) (files : list string) (data0 data : gmap string value)
    (id : string) :
  forEachM (fun data file =>
              content ← safeLoad d (readFileSync d file);
              Ok (<[getName file false := content]> data)) files data0 = Ok data →
  (∀ file, file ∈ files → ∃ v, safeLoad d (readFileSync d file) = Ok v)
  ∧ data !! id
    = match lastNamed (fun file => getName file false) id files with
      | Some file => okValue (safeLoad d (readFileSync d file))
      | None => data0 !! id
      end.
Proof.
  revert data0. induction files as [|x files IH]; intros data0 H.
  - injection H as <-. split; [|reflexivity].
    intros file Hf. by apply elem_of_nil in Hf.
  - cbn [forEachM] in H. okSteps H. okSteps E. injection E as <-.
    destruct (IH _ H) as [Hall Hl]. split.
    + intros file [->|Hf]%elem_of_cons; [eexists; exact E0|by apply Hall].
    + cbn [lastNamed]. rewrite Hl.
      destruct (lastNamed _ id files); [reflexivity|]. cbv beta.
      fold (getName x false).
      destruct (String.eqb_spec (getName x false) id) as [->|Hne].
      * by rewrite lookup_insert_eq, E0.
      * by rewrite lookup_insert_ne.
Qed.

(** X12.  When [parseData] returns, every listed data file has loaded, and
    each id holds the content of the last listed file with that name; one
    file that fails to load leaves no data at all. *)
Theorem parseData_all_or_nothing (w : world) (d : disk) (src : Sources.t)
    (data : gmap string value) :
  Loaders.parseData w d src = Ok data →
  (∀ file, file ∈ globby w true (Sources.data src) →
     ∃ v, safeLoad d (readFileSync d file) = Ok v)
  ∧ ∀ id, data !! id
          = lastNamed (fun file => getName file false) id
              (globby w true (Sources.data src))
            ≫= fun file => okValue (safeLoad d (readFileSync d file)).
Proof.
  intros H. unfold Loaders.parseData in H. split.
  - apply (parseData_lookup d _ ∅ data "" H).
  - intros id. destruct (parseData_lookup d _ ∅ data id H) as [_ ->].
    by destruct (lastNamed _ id _).
Qed.

Lemma parseData_all_or_nothing_witness :
  ∃ data,
    Loaders.parseData Site.world Site.files Sources.defaults = Ok data
    ∧ data !! "toolkit" = Some (VStr "kit 2").
Proof.
  destruct (succeeds_ok (Loaders.parseData Site.world Site.files
              Sources.defaults))
    as [data Hd]; [vm_compute; reflexivity|].
  exists data. split; [exact Hd|].
  destruct (parseData_all_or_nothing _ _ _ _ Hd) as [_ Hid].
  rewrite (Hid "toolkit"). reflexivity.
Defined.

Lemma keys_set (k : string) (v : value) (o : obj) :
  Js.keys (Js.set k v o) = if Js.has k o then Js.keys o else (Js.keys o ++ [k])%list.
Proof.
  unfold Js.keys. induction o as [|[k' v'] o IH]; simpl; [reflexivity|].
  destruct (String.eqb k' k) eqn:E; simpl; [reflexivity|].
  rewrite IH. by destruct (Js.has k o).
Qed.

Lemma has_elem_of_keys (k : string) (o : obj) :
  Js.has k o = true ↔ k ∈ Js.keys o.
Proof.
  induction o as [|[k' v'] o IH]; simpl.
  - split; [discriminate|]. intros H. by apply elem_of_nil in H.
  - rewrite elem_of_cons, orb_true_iff, IH.
    destruct (String.eqb_spec k' k) as [->|Hne].
    + split; intros _; by left.
    + split; (intros [H|H]; [|by right]); [discriminate H|congruence].
Qed.

Lemma set_NoDup (k : string) (v : value) (o : obj) :
  NoDup (Js.keys o) → NoDup (Js.keys (Js.set k v o)).
Proof.
  intros H. rewrite keys_set. destruct (Js.has k o) eqn:E; [exact H|].
  apply NoDup_app. split; [exact H|]. split; [|apply NoDup_singleton].
  intros x Hx ->%list_elem_of_singleton.
  apply has_elem_of_keys in Hx. congruence.
Qed.

Lemma foldl_set_get {A : Type} (name : A → string) (val : A → value)
    (l : list A) (o0 : obj) (k : string) :
  Js.get k (foldl (fun o x => Js.set (name x) (val x) o) o0 l)
    = match lastNamed name k l with
      | Some x => val x
      | None => Js.get k o0
      end.
Proof.
  revert o0. induction l as [|x l IH]; intros o0; [reflexivity|].
  cbn [foldl lastNamed]. rewrite IH.
  destruct (lastNamed name k l); [reflexivity|].
  destruct (String.eqb_spec (name x) k) as [->|Hne].
  - apply get_set_eq.
  - by apply get_set_ne.
Qed.

Lemma foldl_set_NoDup {A : Type} (name : A → string) (val : A → value)
    (l : list A) (o0 : obj) :
  NoDup (Js.keys o0) →
  NoDup (Js.keys (foldl (fun o x => Js.set (name x) (val x) o) o0 l)).
Proof.
  revert o0. induction l as [|x l IH]; intros o0 H; [exact H|].
  cbn [foldl]. by apply IH, set_NoDup.
Qed.

(** X13.  [parseDocs] lists every doc id once, and under each id the name
    and the rendered text of the last listed file with that name. *)
Theorem parseDocs_entries (w : world) (d : disk) (src : Sources.t) (id : string) :
  NoDup (Js.keys (Loaders.parseDocs w d src))
  ∧ Js.get id (Loaders.parseDocs w d src)
    = match lastNamed (fun file => getName file false) id
              (globby w true (Sources.docs src)) with
      | Some file =>
          VObj [("name", VStr (toTitleCase id));
                ("content", VStr (mdRender w (readFileSync d file)))]
      | None => VUndef
      end.
Proof.
  unfold Loaders.parseDocs. split.
  - apply (foldl_set_NoDup (fun file => getName file false) (Loaders.doc w d)).
    constructor.
  - rewrite (foldl_set_get (fun file => getName file false) (Loaders.doc w d)).
    destruct (lastNamed _ id _) as [file|] eqn:E; [|reflexivity].
    apply lastNamed_elem_of in E as [_ <-]. reflexivity.
Qed.

(** ** Helper files *)

Lemma takeWhile_app_stop (q : ascii → bool) (a : string) (c : ascii) (r : string) :
  Str.forallb q a = true → q c = false →
  Str.takeWhile q (a +:+ String c r) = a
  ∧ Str.dropWhile q (a +:+ String c r) = String c r.
Proof.
  intros Ha Hc. induction a as [|x a IH].
  - change ("" +:+ String c r) with (String c r). simpl. by rewrite Hc.
  - rewrite string_app_cons. simpl in *.
    apply andb_prop in Ha as [-> Ha]. destruct (IH Ha) as [-> ->]. done.
Qed.

Lemma takeWhile_all (q : ascii → bool) (s : string) :
  Str.forallb q s = true → Str.takeWhile q s = s.
Proof.
  induction s as [|c s IH]; simpl; [reflexivity|].
  intros [-> Hs]%andb_prop. by rewrite IH.
Qed.

Lemma forallb_app (q : ascii → bool) (a b : string) :
  Str.forallb q (a +:+ b) = Str.forallb q a && Str.forallb q b.
Proof.
  induction a as [|c a IH]; [reflexivity|].
  rewrite string_app_cons. simpl. by rewrite IH, andb_assoc.
Qed.

Lemma word_facts (c : ascii) :
  Chars.isWord c = true →
  Chars.isDot c = false ∧ Helpers.isAny c = true ∧ Ascii.eqb c "-" = false.
Proof.
  destruct c as [[|] [|] [|] [|] [|] [|] [|] [|]]; vm_compute; intros; repeat split;
    congruence.
Qed.

Lemma beforeExt_word (e : string) :
  Str.forallb Chars.isWord e = true → Helpers.beforeExt e = None.
Proof.
  induction e as [|c e IH]; [reflexivity|]. simpl.
  intros [Hc He]%andb_prop. rewrite (IH He).
  destruct (word_facts c Hc) as (-> & _). by destruct e.
Qed.

Lemma beforeExt_key (k e : string) :
  wordRun e = true → Helpers.beforeExt (k +:+ String "." e) = Some k.
Proof.
  intros [Hne He]%andb_prop. induction k as [|c k IH].
  - change ("" +:+ String "." e) with (String "." e).
    cbn [Helpers.beforeExt]. rewrite (beforeExt_word e He).
    destruct e as [|x e]; [discriminate Hne|]. simpl in He.
    apply andb_prop in He as [Hx _]. simpl. by rewrite Hx.
  - rewrite string_app_cons. cbn [Helpers.beforeExt]. by rewrite IH.
Qed.

(** X14.  A helper file named [<word>-<key>.<ext>] is registered under
    [<key>], dots and dashes inside the key included, whatever the word
    before the first dash. *)
Theorem helperKey_of_named_file (prefix key ext : string) :
  wordRun prefix = true → key ≠ "" → Str.forallb Helpers.isAny key = true →
  wordRun ext = true →
  Helpers.helperKey (prefix +:+ String "-" (key +:+ String "." ext)) = Ok key.
Proof.
  intros [Hp1 Hp2]%andb_prop Hk Hany He. unfold Helpers.helperKey.
  destruct (takeWhile_app_stop Chars.isWord prefix "-" (key +:+ String "." ext) Hp2 eq_refl)
    as [-> ->].
  destruct prefix as [|p0 prefix]; [discriminate Hp1|].
  rewrite Ascii.eqb_refl.
  assert (Hall : Str.forallb Helpers.isAny (key +:+ String "." ext) = true).
  { rewrite forallb_app, Hany. simpl.
    apply andb_prop in He as [_ He].
    eapply forallb_impl; [|exact He]. intros c Hc. by destruct (word_facts c Hc) as (_ & ? & _). }
  rewrite (takeWhile_all _ _ Hall).
  destruct key as [|c key]; [done|].
  rewrite string_app_cons. by rewrite (beforeExt_key key ext He).
Qed.

Lemma helperKey_of_named_file_witness :
  Helpers.helperKey ("helper" +:+ String "-" ("iterate-each.v2" +:+ String "." "js"))
    = Ok "iterate-each.v2".
Proof. apply helperKey_of_named_file; reflexivity || discriminate. Defined.

Lemma helperKey_dashFree (helper : string) :
  dashFree helper = true →
  Helpers.helperKey helper = Throw "TypeError: cannot read property '2' of null".
Proof.
  intros H. unfold Helpers.helperKey.
  destruct (Str.takeWhile Chars.isWord helper); [reflexivity|].
  pose proof (forallb_dropWhile _ Chars.isWord helper H) as Hd.
  destruct (Str.dropWhile Chars.isWord helper) as [|dash rest]; [reflexivity|].
  simpl in Hd. apply andb_prop in Hd as [Hd%negb_true_iff _]. by rewrite Hd.
Qed.

(** X15.  A helper file without a dash in its name has no key: reading the
    key of the failed match throws. *)
Theorem helperKey_needs_dash (helper : string) :
  dashFree helper = true →
  Helpers.helperKey helper = Throw "TypeError: cannot read property '2' of null".
Proof. apply helperKey_dashFree. Qed.

Lemma helperKey_needs_dash_witness :
  Helpers.helperKey "iterate.js" = Throw "TypeError: cannot read property '2' of null".
Proof. apply helperKey_needs_dash. reflexivity. Defined.

Lemma foldl_insert_some {A V : Type} (name : A → string) (val : A → V)
    (l : list A) (m0 : gmap string V) (k : string) :
  is_Some (m0 !! k) → is_Some (foldl (fun m x => <[name x := val x]> m) m0 l !! k).
Proof.
  intros H. rewrite foldl_insert_lookup. by destruct (lastNamed name k l).
Qed.

Lemma registerLocal_some {H : Type} (require : string → H) (l : list string)
    (hs0 hs : gmap string H) :
  forEachM (fun hs helper =>
              key ← Helpers.helperKey helper; Ok (<[key := require helper]> hs))
    l hs0 = Ok hs →
  (∀ k, is_Some (hs0 !! k) → is_Some (hs !! k))
  ∧ ∀ helper, helper ∈ l → ∃ key, Helpers.helperKey helper = Ok key ∧ is_Some (hs !! key).
Proof.
  revert hs0. induction l as [|x l IH]; intros hs0 Hl.
  - injection Hl as <-. split; [done|]. intros helper Hh. by apply elem_of_nil in Hh.
  - cbn [forEachM] in Hl. okSteps Hl. okSteps E. injection E as <-.
    destruct (IH _ Hl) as [Hkeep Hreg]. split.
    + intros k Hk. apply Hkeep.
      destruct (decide (a0 = k)) as [->|Hne];
        [rewrite lookup_insert_eq; eauto|by rewrite lookup_insert_ne].
    + intros helper [->|Hh]%elem_of_cons; [|by apply Hreg].
      exists a0. split; [exact E0|]. apply Hkeep. rewrite lookup_insert_eq. eauto.
Qed.

(** X16.  After [registerHelpers] the name of the material helper holds the
    built-in helper, whatever the user passed under that name; any other
    name the user passed holds the user's helper, the last one of that name,
    also where a local helper file has the same key; every local helper file
    has its key registered, and no helper registered earlier is dropped. *)
Theorem registerHelpers_precedence {H : Type} (h : Helpers.env H)
    (helpers0 helpers : gmap string H) :
  Helpers.registerHelpers h helpers0 = Ok helpers →
  helpers !! Helpers.singular h = Some (Helpers.material h)
  ∧ (∀ name entry, name ≠ Helpers.singular h →
       lastNamed fst name (Helpers.userHelpers h) = Some entry →
       helpers !! name = Some (snd entry))
  ∧ (∀ helper, helper ∈ Helpers.localHelpers h →
       ∃ key, Helpers.helperKey helper = Ok key ∧ is_Some (helpers !! key))
  ∧ (∀ name, is_Some (helpers0 !! name) → is_Some (helpers !! name)).
Proof.
  intros Hr. unfold Helpers.registerHelpers in Hr. okSteps Hr. injection Hr as <-.
  destruct (registerLocal_some (Helpers.require h) _ _ _ E) as [Hkeep Hreg].
  assert (Hmono : ∀ k, is_Some (a !! k) →
            is_Some (<[Helpers.singular h := Helpers.material h]>
                       (foldl (fun hs kv => <[fst kv := snd kv]> hs) a
                          (Helpers.userHelpers h)) !! k)).
  { intros k Hk. destruct (decide (Helpers.singular h = k)) as [<-|Hne].
    - rewrite lookup_insert_eq. eauto.
    - rewrite lookup_insert_ne by done. by apply (foldl_insert_some fst snd). }
  split; [apply lookup_insert_eq|]. split; [|split].
  - intros name entry Hne Hlast. rewrite lookup_insert_ne by done.
    by rewrite (foldl_insert_lookup fst snd), Hlast.
  - intros helper Hh. destruct (Hreg helper Hh) as (key & Hkey & Hsome).
    exists key. split; [exact Hkey|]. by apply Hmono.
  - intros name Hn. by apply Hmono, Hkeep.
Qed.

Lemma registerHelpers_precedence_witness :
  ∃ helpers,
    Helpers.registerHelpers Site.helpers {[ "each" := "earlier each" ]} = Ok helpers
    ∧ helpers !! "material" = Some "built-in material"
    ∧ helpers !! "iterate" = Some "user iterate"
    ∧ is_Some (helpers !! "each").
Proof.
  destruct (succeeds_ok (Helpers.registerHelpers Site.helpers
              {[ "each" := "earlier each" ]}))
    as [helpers Hr]; [vm_compute; reflexivity|].
  exists helpers. split; [exact Hr|].
  destruct (registerHelpers_precedence _ _ _ Hr) as (Hmat & Huser & _ & Hkeep).
  split; [exact Hmat|]. split.
  - apply (Huser "iterate" ("iterate", "user iterate")); [discriminate|reflexivity].
  - apply Hkeep. rewrite lookup_singleton_eq. by eexists.
Defined.

(** ** What [parseMaterials] registers *)

Lemma omit_has (k : string) (o : obj) : Js.has k (Js.omit k o) = false.
Proof.
  unfold Js.omit. induction o as [|[k' v'] o IH]; simpl; [reflexivity|].
  destruct (String.eqb k' k) eqn:E; simpl; [exact IH|]. by rewrite E, IH.
Qed.

Lemma pop_dirSegments (file : string) :
  ∃ c, Str.pop (Materials.dirSegments file) = Some c.
Proof. exact (dirName_some file). Qed.

Lemma parseFile_registers (w : world) (ds : list (option string))
    (st st' : Materials.state) (file : string) :
  Materials.parseFile w ds st file = Ok st' →
  ∃ source,
    fragmentSource w ds file = Ok source
    ∧ Materials.partials st'
      = <[fragmentId ds file := PSource source]> (Materials.partials st)
    ∧ Materials.materialData st'
      = <[Namespacer.namespacedId (fragmentId ds file) := fragmentData w file]>
          (Materials.materialData st).
Proof.
  intros H. unfold Materials.parseFile in H.
  unfold fragmentSource, fragmentData, fragmentId.
  destruct (pop_dirSegments file) as [c Hc]. rewrite Hc in *.
  cbn [getNameOf mbind outcome_bind] in H.
  unfold Materials.isSubCollectionParse.
  okSteps H. injection H as <-. simpl. eauto.
Qed.

Lemma registered_step (w : world) (ds : list (option string))
    (materialData0 : gmap string value) (partials0 : gmap string partial)
    (done : list string) (st : Materials.state) (file : string) (st' : Materials.state) :
  registered w ds materialData0 partials0 done st →
  Materials.parseFile w ds st file = Ok st' →
  registered w ds materialData0 partials0 (done ++ [file]) st'.
Proof.
  intros (Hp1 & Hp2 & Hd1 & Hd2 & Hd3) H.
  destruct (parseFile_registers _ _ _ _ _ H) as (source & _ & Hps & Hmd).
  unfold registered, fragmentData in *. rewrite Hps, Hmd. repeat split.
  - intros f [Hf|Hf]%elem_of_app; [|apply list_elem_of_singleton in Hf as ->].
    + destruct (decide (fragmentId ds file = fragmentId ds f)) as [->|Hne];
        [rewrite lookup_insert_eq; eauto|].
      rewrite lookup_insert_ne by done. by apply Hp1.
    + rewrite lookup_insert_eq. eauto.
  - intros k Hk. rewrite lookup_insert_ne.
    + apply Hp2. intros f Hf. apply Hk, elem_of_app. by left.
    + apply Hk, elem_of_app. right. apply list_elem_of_here.
  - intros f [Hf|Hf]%elem_of_app; [|apply list_elem_of_singleton in Hf as ->].
    + destruct (decide (Namespacer.namespacedId (fragmentId ds file)
                        = Namespacer.namespacedId (fragmentId ds f))) as [->|Hne].
      * rewrite lookup_insert_eq. eexists. split; [reflexivity|apply omit_has].
      * rewrite lookup_insert_ne by done. by apply Hd1.
    + rewrite lookup_insert_eq. eexists. split; [reflexivity|apply omit_has].
  - intros k Hk. rewrite lookup_insert_ne.
    + apply Hd2. intros f Hf. apply Hk, elem_of_app. by left.
    + apply Hk, elem_of_app. right. apply list_elem_of_here.
  - intros k Hk.
    destruct (decide (Namespacer.namespacedId (fragmentId ds file) = k)) as [->|Hne].
    + rewrite lookup_insert_eq. eauto.
    + rewrite lookup_insert_ne by done. by apply Hd3.
Qed.

Lemma parseMaterials_registered (w : world) (options : Options.t)
    (materialData0 : gmap string value) (partials0 : gmap string partial)
    (st : Materials.state) :
  Materials.parseMaterials w options materialData0 partials0 = Ok st →
  registered w (Materials.dirs w options) materialData0 partials0
    (globby w true (Options.materials options)) st.
Proof.
  intros H. unfold Materials.parseMaterials in H. okSteps H. injection H as <-.
  unfold Materials.populate in E. okSteps E.
  assert (Hinv : registered w (Materials.dirs w options) materialData0 partials0
                   ([] ++ globby w true (Options.materials options)) a).
  { eapply (forEachM_inv _
              (registered w (Materials.dirs w options) materialData0 partials0)
              (registered_step w (Materials.dirs w options) materialData0 partials0));
      [|exact E].
    unfold registered. simpl. repeat split; try done.
    - intros f Hf. by apply elem_of_nil in Hf.
    - intros f Hf. by apply elem_of_nil in Hf. }
  exact Hinv.
Qed.

(** X17.  After [parseMaterials] every material file has template source
    registered under its id; a partial under any other name, such as a
    layout include, is exactly what it was before the call. *)
Theorem parseMaterials_partials (w : world) (options : Options.t)
    (materialData0 : gmap string value) (partials0 : gmap string partial)
    (st : Materials.state) :
  Materials.parseMaterials w options materialData0 partials0 = Ok st →
  (∀ file, file ∈ globby w true (Options.materials options) →
     ∃ source, Materials.partials st !! fragmentId (Materials.dirs w options) file
               = Some (PSource source))
  ∧ (∀ name,
       (∀ file, file ∈ globby w true (Options.materials options) →
          fragmentId (Materials.dirs w options) file ≠ name) →
       Materials.partials st !! name = partials0 !! name).
Proof.
  intros H. destruct (parseMaterials_registered _ _ _ _ _ H) as (H1 & H2 & _).
  by split.
Qed.

Lemma parseMaterials_partials_witness :
  ∃ st,
    Materials.parseMaterials Site.world Options.defaults ∅
      {[ "head" := PSource "<head></head>" ]} = Ok st
    ∧ Materials.partials st !! "head" = Some (PSource "<head></head>")
    ∧ ∃ source, Materials.partials st !! "buttons.primary" = Some (PSource source).
Proof.
  destruct (succeeds_ok (Materials.parseMaterials Site.world Options.defaults
              ∅ {[ "head" := PSource "<head></head>" ]}))
    as [st Hst]; [vm_compute; reflexivity|].
  exists st. split; [exact Hst|].
  destruct (parseMaterials_partials _ _ _ _ _ Hst) as [Hfile Hother].
  split.
  - rewrite (Hother "head"); [apply lookup_singleton_eq|].
    intros file Hin. vm_compute in Hin.
    repeat (apply elem_of_cons in Hin as [->|Hin]; [vm_compute; discriminate|]).
    apply elem_of_nil in Hin. destruct Hin.
  - apply (Hfile "src/materials/components/02-buttons/01-primary.html").
    vm_compute. apply list_elem_of_further, list_elem_of_here.
Defined.

Lemma lastNamed_snoc {A : Type} (name : A → string) (k : string) (l : list A) (x : A) :
  lastNamed name k (l ++ [x])
  = if String.eqb (name x) k then Some x else lastNamed name k l.
Proof.
  induction l as [|y l IH]; cbn [lastNamed app].
  - by destruct (String.eqb (name x) k).
  - rewrite IH. by destruct (String.eqb (name x) k).
Qed.

Lemma registeredExactly_step (w : world) (ds : list (option string))
    (materialData0 : gmap string value) (partials0 : gmap string partial)
    (done : list string) (st : Materials.state) (file : string) (st' : Materials.state) :
  registeredExactly w ds materialData0 partials0 done st →
  Materials.parseFile w ds st file = Ok st' →
  registeredExactly w ds materialData0 partials0 (done ++ [file]) st'.
Proof.
  intros (Hok & Hps & Hmd) H.
  destruct (parseFile_registers _ _ _ _ _ H) as (source & Hsrc & Hps' & Hmd').
  split; [|split].
  - intros f [Hf|Hf]%elem_of_app; [by apply Hok|].
    apply list_elem_of_singleton in Hf as ->. by exists source.
  - intros k. rewrite Hps', lastNamed_snoc.
    destruct (String.eqb_spec (fragmentId ds file) k) as [->|Hne].
    + by rewrite lookup_insert_eq, Hsrc.
    + rewrite lookup_insert_ne by done. apply Hps.
  - intros k. rewrite Hmd', lastNamed_snoc.
    destruct (String.eqb_spec (Namespacer.namespacedId (fragmentId ds file)) k)
      as [->|Hne].
    + by rewrite lookup_insert_eq.
    + rewrite lookup_insert_ne by done. apply Hmd.
Qed.

Lemma parseMaterials_registeredExactly (w : world) (options : Options.t)
    (materialData0 : gmap string value) (partials0 : gmap string partial)
    (st : Materials.state) :
  Materials.parseMaterials w options materialData0 partials0 = Ok st →
  registeredExactly w (Materials.dirs w options) materialData0 partials0
    (globby w true (Options.materials options)) st.
Proof.
  intros H. unfold Materials.parseMaterials in H. okSteps H. injection H as <-.
  unfold Materials.populate in E. okSteps E.
  assert (Hinv : registeredExactly w (Materials.dirs w options) materialData0
                   partials0 ([] ++ globby w true (Options.materials options)) a).
  { eapply (forEachM_inv _
              (registeredExactly w (Materials.dirs w options) materialData0 partials0)
              (registeredExactly_step w (Materials.dirs w options)
                 materialData0 partials0));
      [|exact E].
    split; [|by split]. intros f Hf. by apply elem_of_nil in Hf. }
  exact Hinv.
Qed.

(** X18.  After [parseMaterials] the table of front matter holds, under the
    id of a material file with dots turned into dashes, the front matter of
    the last listed file of that id, without its [notes]; under any other
    key it holds what it held before the call: the table is never reset, so
    the entries of earlier calls stay. *)
Theorem parseMaterials_materialData (w : world) (options : Options.t)
    (materialData0 : gmap string value) (partials0 : gmap string partial)
    (st : Materials.state) :
  Materials.parseMaterials w options materialData0 partials0 = Ok st →
  ∀ k,
    Materials.materialData st !! k
    = match lastNamed
              (fun file =>
                 Namespacer.namespacedId (fragmentId (Materials.dirs w options) file))
              k (globby w true (Options.materials options)) with
      | Some file => Some (VObj (Js.omit "notes" (matterData (getMatter w file))))
      | None => materialData0 !! k
      end.
Proof.
  intros H k. by destruct (parseMaterials_registeredExactly _ _ _ _ _ H) as (_ & _ & ->).
Qed.

Lemma parseMaterials_materialData_witness :
  ∃ st,
    Materials.parseMaterials Site.world Options.defaults
      {[ "card" := VObj [("title", VStr "Earlier")] ]} ∅ = Ok st
    ∧ Materials.materialData st !! "card" = Some (VObj [("title", VStr "Earlier")])
    ∧ Materials.materialData st !! "button" = Some (VObj [("title", VStr "Go")]).
Proof.
  destruct (succeeds_ok (Materials.parseMaterials Site.world Options.defaults
              {[ "card" := VObj [("title", VStr "Earlier")] ]} ∅))
    as [st Hst]; [vm_compute; reflexivity|].
  exists st. split; [exact Hst|].
  pose proof (parseMaterials_materialData _ _ _ _ _ Hst) as Hk.
  split; [rewrite (Hk "card")|rewrite (Hk "button")]; vm_compute; reflexivity.
Defined.

(** ** The keys of the trees *)

Lemma bind_ok {A B : Type} (m : outcome A) (k : A → outcome B) (r : B) :
  mbind k m = Ok r → ∃ a, m = Ok a ∧ k a = Ok r.
Proof. destruct m as [a| |]; simpl; [by exists a|discriminate..]. Qed.

Lemma forEachM_preserves {A S : Type} (body : S → A → outcome S) (P : S → Prop) :
  (∀ s x s', P s → body s x = Ok s' → P s') →
  ∀ xs s0 s, P s0 → forEachM body xs s0 = Ok s → P s.
Proof.
  intros Hstep xs s0 s H0 H.
  apply (forEachM_inv body (fun _ => P) (fun _ => Hstep) xs [] s0 s H0 H).
Qed.

Lemma updateObj_NoDup (path : list string) (f : value → value) (o o' : obj) :
  Materials.updateObj path f o = Ok o' →
  NoDup (Js.keys o) → NoDup (Js.keys o').
Proof.
  destruct path as [|p rest]; unfold Materials.updateObj.
  - by intros [= <-].
  - intros (c & _ & [= <-])%bind_ok. apply set_NoDup.
Qed.

Lemma collectionName_not_key (options : Options.t) (file : string) :
  Views.collectionName options file = Options.keys_views options →
  Options.keys_views options = "".
Proof.
  unfold Views.collectionName. destruct (Views.dirName file) as [dirname|]; [|done].
  destruct (String.eqb_spec dirname (Options.keys_views options)); simpl; congruence.
Qed.

Lemma parseView_NoDup (w : world) (options : Options.t) (views : obj)
    (file : string) (views' : obj) :
  Views.parseView w options views file = Ok views' →
  NoDup (Js.keys views) → NoDup (Js.keys views').
Proof.
  intros H Hn. unfold Views.parseView in H.
  destruct (negb _) in H; [|by injection H as <-].
  apply bind_ok in H as (views1 & H1 & H).
  apply (updateObj_NoDup _ _ _ _ H), (updateObj_NoDup _ _ _ _ H1), Hn.
Qed.

(** X20.  The views tree lists every collection once, and none under the
    empty name or under the name of the views key. *)
Theorem parseViews_collection_keys (w : world) (options : Options.t) (tree : obj) :
  Views.parseViews w options = Ok tree →
  NoDup (Js.keys tree)
  ∧ ("" ∉ Js.keys tree)
  ∧ (Options.keys_views options ∉ Js.keys tree).
Proof.
  intros H. unfold Views.parseViews in H.
  assert (Hn : NoDup (Js.keys tree)).
  { eapply (forEachM_preserves _ (fun views => NoDup (Js.keys views)));
      [| |exact H]; [|apply NoDup_nil_2].
    intros views x views' Hm Hs. by eapply parseView_NoDup. }
  assert (Hs : viewsWf options ([] ++ globby w true (Options.views options)) tree).
  { eapply (forEachM_inv _ (viewsWf options) (parseView_wf w options)); [|exact H].
    split; [intros c v Hcv; by apply elem_of_nil in Hcv
           |intros f Hf; by apply elem_of_nil in Hf]. }
  destruct Hs as [Hs _].
  assert (Hkey : ∀ k, k ∈ Js.keys tree →
            k ≠ "" ∧ ∃ f, Views.collectionName options f = k).
  { intros k Hk. unfold Js.keys in Hk. apply list_elem_of_In, in_map_iff in Hk.
    destruct Hk as ([k' v] & <- & Hin). apply list_elem_of_In in Hin.
    destruct (Hs k' v Hin) as (Hne & (f & _ & Hf) & _). split; [exact Hne|by exists f]. }
  split; [exact Hn|]. split.
  - intros Hk. by destruct (Hkey _ Hk).
  - intros Hk. destruct (Hkey _ Hk) as [Hne [f Hf]].
    by apply Hne, (collectionName_not_key options f).
Qed.

Lemma parseViews_collection_keys_witness :
  ∃ tree,
    Views.parseViews Site.world Options.defaults = Ok tree
    ∧ NoDup (Js.keys tree)
    ∧ ("" ∉ Js.keys tree)
    ∧ ("views" ∉ Js.keys tree).
Proof.
  destruct (succeeds_ok (Views.parseViews Site.world Options.defaults))
    as [tree Ht]; [vm_compute; reflexivity|].
  exists tree. split; [exact Ht|].
  apply (parseViews_collection_keys _ _ _ Ht).
Defined.

(** ** The files [assemble] writes *)

Lemma assembleView_events (w : world) (e : engine) (options : Options.t)
    (assembly : Assembly.t) (file : string) (events : list event) :
  Views.assembleView w e options assembly file = Ok events →
  ∃ path out,
    Views.outputPath options (Views.pageData options w file) file = Ok path
    ∧ events =
        ([Mkdirp (Path.dirname path); WriteFile path out]
         ++ match Js.get "dest-copy" (Views.pageData options w file) with
            | VStr c =>
                if String.eqb c "" then []
                else [Mkdirp (Path.dirname (Path.normalize c));
                      WriteFile (Path.normalize c) out]
            | _ => []
            end)%list.
Proof.
  intros H. unfold Views.assembleView in H.
  apply bind_ok in H as (lid & _ & H).
  apply bind_ok in H as (source & _ & H).
  apply bind_ok in H as (path & Hpath & H).
  apply bind_ok in H as (out & Hout & H).
  apply bind_ok in H as (copy & Hcopy & [= <-]).
  exists path, out. split; [exact Hpath|]. f_equal.
  destruct (Js.get "dest-copy" (Views.pageData options w file)) as [| |b|z|c|o];
    simpl in Hcopy; try (by injection Hcopy as <-).
  - destruct b; [discriminate Hcopy|by injection Hcopy as <-].
  - destruct (negb (z =? 0)%Z); [discriminate Hcopy|by injection Hcopy as <-].
  - destruct (String.eqb c ""); simpl in Hcopy; [by injection Hcopy as <-|].
    rewrite Hout in Hcopy. simpl in Hcopy. by injection Hcopy as <-.
  - discriminate Hcopy.
Qed.

Lemma assemble_steps (w : world) (e : engine) (options : Options.t)
    (assembly : Assembly.t) (files : list string) (events0 events : list event) :
  forEachM (fun events file =>
              evs ← Views.assembleView w e options assembly file;
              Ok (events ++ evs)%list) files events0 = Ok events →
  ∃ parts,
    Forall2 (fun file evs => Views.assembleView w e options assembly file = Ok evs)
      files parts
    ∧ events = (events0 ++ concat parts)%list.
Proof.
  revert events0. induction files as [|x files IH]; intros events0 H.
  - injection H as <-. exists []. split; [constructor|]. by rewrite app_nil_r.
  - cbn [forEachM] in H. apply bind_ok in H as (events1 & H1 & H).
    apply bind_ok in H1 as (evs & Hx & [= <-]).
    destruct (IH _ H) as (parts & Hf & ->).
    exists (evs :: parts). split; [by constructor|]. simpl. by rewrite app_assoc.
Qed.

Lemma madeBefore_app (l1 l2 : list event) :
  madeBefore l1 → madeBefore l2 → madeBefore (l1 ++ l2).
Proof.
  intros H1 H2 pre path out post Heq.
  apply app_eq_app in Heq as [l [[-> Hl]|[-> Hl]]].
  - destruct l as [|x l]; simpl in Hl.
    + symmetry in Hl. apply (H2 [] path out post) in Hl. by apply elem_of_nil in Hl.
    + injection Hl as <- ->. by apply (H1 pre path out l).
  - apply elem_of_app. right. by apply (H2 l path out post).
Qed.

Lemma madeBefore_pair (dir path out : string) (rest : list event) :
  dir = Path.dirname path → madeBefore rest →
  madeBefore (Mkdirp dir :: WriteFile path out :: rest).
Proof.
  intros -> Hrest pre p o post Heq.
  destruct pre as [|x pre]; [discriminate Heq|]. injection Heq as <- Heq.
  destruct pre as [|y pre].
  - injection Heq as <- <- <-. apply list_elem_of_here.
  - injection Heq as <- Heq. do 2 apply list_elem_of_further. by apply (Hrest pre p o post).
Qed.

Lemma madeBefore_nil : madeBefore [].
Proof. intros [|x pre] p o post Heq; discriminate Heq. Qed.

Lemma assembleView_madeBefore (w : world) (e : engine) (options : Options.t)
    (assembly : Assembly.t) (file : string) (events : list event) :
  Views.assembleView w e options assembly file = Ok events → madeBefore events.
Proof.
  intros H. destruct (assembleView_events _ _ _ _ _ _ H) as (path & out & _ & ->).
  apply madeBefore_pair; [reflexivity|].
  destruct (Js.get "dest-copy" _) as [| | | |c|]; try apply madeBefore_nil.
  destruct (String.eqb c ""); [apply madeBefore_nil|].
  apply madeBefore_pair; [reflexivity|apply madeBefore_nil].
Qed.

(** X21.  In a run of [assemble] that returns, no file is written into a
    directory the run has not made before: every write, the copy of a
    [dest-copy] included, comes after the [mkdirp] of its directory. *)
Theorem assemble_makes_directories_first (w : world) (e : engine)
    (options : Options.t) (assembly : Assembly.t) (events : list event) :
  Views.assemble w e options assembly = Ok events → madeBefore events.
Proof.
  intros H. unfold Views.assemble in H.
  destruct (assemble_steps _ _ _ _ _ _ _ H) as (parts & Hf & ->).
  apply madeBefore_app.
  - intros [|x [|y pre]] p o post Heq; discriminate Heq.
  - clear H. induction Hf as [|f evs files parts Hfe _ IH]; simpl.
    + apply madeBefore_nil.
    + apply madeBefore_app; [by eapply assembleView_madeBefore|exact IH].
Qed.

Lemma assemble_makes_directories_first_witness :
  madeBefore
    [Mkdirp "dist";
     Mkdirp "dist"; WriteFile "dist/index.html" "<main><h1>{{title}}</h1></main>";
     Mkdirp "dist/forms"; WriteFile "dist/forms/input.html" "<main><input></main>"].
Proof.
  apply (assemble_makes_directories_first Fixtures.siteWorld Fixtures.echoEngine
           Options.defaults Fixtures.siteAssembly).
  vm_compute. reflexivity.
Defined.

(** ** The whole run *)

Lemma assembleView_agrees (w : world) (e : engine) (options : Options.t)
    (assembly : Assembly.t) (file : string) :
  snd (Main.assembleView w e options assembly file)
    = Main.failed (Views.assembleView w e options assembly file)
  ∧ ∀ events, Views.assembleView w e options assembly file = Ok events →
      fst (Main.assembleView w e options assembly file) = Main.Did <$> events.
Proof.
  unfold Main.assembleView, Views.assembleView.
  destruct (Views.layoutId options _) as [lid| |]; simpl;
    [|split; [reflexivity|discriminate]..].
  destruct (wrapPage _ _) as [source| |]; simpl;
    [|split; [reflexivity|discriminate]..].
  destruct (Views.outputPath options _ file) as [filePath| |]; simpl;
    [|split; [reflexivity|discriminate]..].
  destruct (compile e source _) as [out| |]; simpl;
    [|split; [reflexivity|discriminate]..].
  destruct (Js.truthy _); simpl; [|split; [reflexivity|by intros ? [= <-]]].
  destruct (Views.pathArg _) as [c| |]; simpl;
    [|split; [reflexivity|discriminate]..].
  split; [reflexivity|by intros ? [= <-]].
Qed.

Lemma foldl_andThen_failed (f : string → Main.run) (files : list string) (r : Main.run) :
  (∀ u, snd r ≠ Ok u) → foldl (fun r file => Main.andThen r (f file)) r files = r.
Proof.
  intros Hr. induction files as [|x files IH]; simpl; [reflexivity|].
  assert (Hx : Main.andThen r (f x) = r).
  { unfold Main.andThen. destruct (snd r) as [u| |] eqn:E; [by destruct (Hr u)|done..]. }
  by rewrite Hx.
Qed.

(** X22.  [assemble] stops at the first view that throws and undoes nothing:
    the directories made and the files written for the views before it stay,
    with what the failing view did up to its throw, and no later view is
    touched. *)
Theorem assemble_stops_at_first_failure (w : world) (e : engine)
    (options : Options.t) (assembly : Assembly.t)
    (done : list string) (file : string) (rest : list string)
    (parts : list (list event)) :
  globby w true (Options.views options) = (done ++ file :: rest)%list →
  Forall2 (fun f evs => Views.assembleView w e options assembly f = Ok evs)
    done parts →
  (∀ u, snd (Main.assembleView w e options assembly file) ≠ Ok u) →
  Main.assemble w e options assembly
  = (((Main.Did <$> (Mkdirp (Options.dest options) :: concat parts))
      ++ fst (Main.assembleView w e options assembly file))%list,
     snd (Main.assembleView w e options assembly file)).
Proof.
  intros Hfiles Hdone Hfail. unfold Main.assemble. rewrite Hfiles.
  rewrite foldl_app. simpl.
  assert (Hpre : ∀ steps0,
            foldl (fun r f => Main.andThen r (Main.assembleView w e options assembly f))
              (steps0, Ok ()) done
            = ((steps0 ++ (Main.Did <$> concat parts))%list, Ok ())).
  { clear Hfiles. induction Hdone as [|f evs done parts Hf _ IH]; intros steps0; simpl.
    - by rewrite app_nil_r.
    - destruct (assembleView_agrees w e options assembly f) as [Hs Hevs].
      unfold Main.andThen at 2. simpl. rewrite Hs, Hf, (Hevs evs Hf). simpl.
      rewrite IH, fmap_app. by rewrite app_assoc. }
  rewrite Hpre. unfold Main.andThen at 2. simpl.
  rewrite foldl_andThen_failed by exact Hfail.
  reflexivity.
Qed.

Lemma assemble_stops_at_first_failure_witness :
  Main.assemble Site.world Site.pickyEngine Options.defaults Fixtures.siteAssembly
  = ([Main.Did (Mkdirp "dist");
      Main.Did (Mkdirp "dist");
      Main.Did (WriteFile "dist/index.html" "<main><h1>{{title}}</h1></main>");
      Main.Did (Mkdirp "dist/forms");
      Main.TemplateErrorLogged "src/views/forms/input.html"],
     Throw "Parse error").
Proof.
  rewrite (assemble_stops_at_first_failure Site.world Site.pickyEngine
             Options.defaults Fixtures.siteAssembly
             ["src/views/index.html"] "src/views/forms/input.html"
             ["src/views/forms/select.html"]
             [[Mkdirp "dist";
               WriteFile "dist/index.html" "<main><h1>{{title}}</h1></main>"]]).
  - vm_compute. reflexivity.
  - vm_compute. reflexivity.
  - repeat constructor; vm_compute; reflexivity.
  - intros u. vm_compute. discriminate.
Defined.

Lemma handleError_exit (options : Options.t) (e : jsError) (status : Z) :
  ProcessExit status ∈ handleError options e →
  status = 1%Z
  ∧ Options.onError options = NotAFunction ∧ Options.logErrors options = false.
Proof.
  unfold handleError.
  destruct (Options.onError options), (Options.logErrors options); simpl; intros H;
    repeat (apply elem_of_cons in H as [H|H]; [try discriminate H|]);
    try (by apply elem_of_nil in H).
  by injection H as ->.
Qed.

Lemma handleError_unhandled (options : Options.t) (e : jsError) :
  Options.onError options = NotAFunction → Options.logErrors options = false →
  handleError options e = [ConsoleError (errMessage e) (errStack e); ProcessExit 1].
Proof. unfold handleError. by intros -> ->. Qed.

Lemma assembleView_notExit (w : world) (e : engine) (options : Options.t)
    (assembly : Assembly.t) (file : string) :
  Forall notExit (fst (Main.assembleView w e options assembly file)).
Proof.
  unfold Main.assembleView. repeat case_match; simpl; repeat constructor.
Qed.

Lemma andThen_notExit (first second : Main.run) :
  Forall notExit (fst first) → Forall notExit (fst second) →
  Forall notExit (fst (Main.andThen first second)).
Proof.
  intros H1 H2. unfold Main.andThen. destruct (snd first); simpl; [|done..].
  by apply Forall_app.
Qed.

Lemma assemble_notExit (w : world) (e : engine) (options : Options.t)
    (assembly : Assembly.t) :
  Forall notExit (fst (Main.assemble w e options assembly)).
Proof.
  unfold Main.assemble.
  assert (H : ∀ files r, Forall notExit (fst r) →
            Forall notExit
              (fst (foldl (fun r file =>
                             Main.andThen r (Main.assembleView w e options assembly file))
                      r files))).
  { induction files as [|x files IH]; intros r Hr; simpl; [exact Hr|].
    apply IH, andThen_notExit; [exact Hr|apply assembleView_notExit]. }
  apply H. by repeat constructor.
Qed.

Lemma body_notExit {H : Type} (w : world) (d : disk) (e : engine) (options : Options.t)
    (src : Sources.t) (h : Helpers.env H) (helpers0 : gmap string H)
    (materialData0 : gmap string value) (partials0 : gmap string partial) :
  Forall notExit (fst (Main.body w d e options src h helpers0 materialData0 partials0)).
Proof.
  unfold Main.body. destruct (Setup.setup _ _ _ _ _ _ _ _); simpl;
    [apply assemble_notExit|constructor..].
Qed.

(** X23.  A run ends the process exactly when [setup] or [assemble] threw
    and neither a callback nor logging is configured; it then ends with
    status 1, as the last thing the run does.  Assembling itself never ends
    the process. *)
Theorem main_exit_policy {H : Type} (w : world) (d : disk) (e : engine)
    (options : Options.t) (src : Sources.t) (h : Helpers.env H)
    (thrown : string → jsError) (helpers0 : gmap string H)
    (materialData0 : gmap string value) (partials0 : gmap string partial) :
  ((∃ status,
      Main.Did (ProcessExit status)
        ∈ fst (Main.main w d e options src h thrown helpers0 materialData0 partials0))
   ↔ (∃ msg, snd (Main.body w d e options src h helpers0 materialData0 partials0)
             = Throw msg)
     ∧ Options.onError options = NotAFunction
     ∧ Options.logErrors options = false)
  ∧ (∀ status,
       Main.Did (ProcessExit status)
         ∈ fst (Main.main w d e options src h thrown helpers0 materialData0 partials0) →
       status = 1%Z
       ∧ last (fst (Main.main w d e options src h thrown helpers0 materialData0 partials0))
         = Some (Main.Did (ProcessExit 1))).
Proof.
  pose proof (body_notExit w d e options src h helpers0 materialData0 partials0) as Hbody.
  rewrite Forall_forall in Hbody.
  assert (Hno : ∀ status,
            Main.Did (ProcessExit status)
              ∉ fst (Main.body w d e options src h helpers0 materialData0 partials0)).
  { intros status Hin. apply (Hbody _ Hin). }
  unfold Main.main.
  destruct (snd (Main.body w d e options src h helpers0 materialData0 partials0))
    as [u|msg|] eqn:Hs; simpl.
  - split; [split|].
    + intros [status Hin]. by destruct (Hno status).
    + intros [[msg Hmsg] _]. discriminate Hmsg.
    + intros status Hin. by destruct (Hno status).
  - assert (Hin : ∀ status,
              Main.Did (ProcessExit status)
                ∈ (fst (Main.body w d e options src h helpers0 materialData0 partials0)
                   ++ List.map Main.Did (handleError options (thrown msg)))%list →
              ProcessExit status ∈ handleError options (thrown msg)).
    { intros status [Hin|Hin]%elem_of_app; [by destruct (Hno status)|].
      apply list_elem_of_In, in_map_iff in Hin as (ev & [= ->] & Hin).
      by apply list_elem_of_In. }
    split; [split|].
    + intros [status Hst]. apply Hin, handleError_exit in Hst as (_ & Hcb & Hlog).
      split; [by exists msg|by split].
    + intros (_ & Hcb & Hlog). exists 1%Z.
      rewrite (handleError_unhandled _ _ Hcb Hlog). simpl.
      apply elem_of_app. right. set_solver.
    + intros status Hst. apply Hin, handleError_exit in Hst as (-> & Hcb & Hlog).
      split; [reflexivity|].
      rewrite (handleError_unhandled _ _ Hcb Hlog). simpl.
      change [Main.Did (ConsoleError (errMessage (thrown msg)) (errStack (thrown msg)));
              Main.Did (ProcessExit 1)]
        with ([Main.Did (ConsoleError (errMessage (thrown msg)) (errStack (thrown msg)))]
              ++ [Main.Did (ProcessExit 1)])%list.
      rewrite app_assoc. apply last_snoc.
  - split; [split|].
    + intros [status Hin]. by destruct (Hno status).
    + intros [[msg Hmsg] _]. discriminate Hmsg.
    + intros status Hin. by destruct (Hno status).
Qed.

(** ** [setup] as a whole *)

(** X24.  After [setup] the registry holds, under the id of a material, the
    template source of the last listed material file of that id, also where
    a layout include has that name: the include is replaced.  Under a name
    no material has it holds the text of the last layout include of that
    name, and otherwise what it held before. *)
Theorem setup_partials {H : Type} (w : world) (d : disk) (options : Options.t)
    (src : Sources.t) (h : Helpers.env H) (helpers0 : gmap string H)
    (materialData0 : gmap string value) (partials0 : gmap string partial)
    (s : Setup.state H) :
  Setup.setup w d options src h helpers0 materialData0 partials0 = Ok s →
  (∀ file, file ∈ globby w true (Options.materials options) →
     ∃ source, fragmentSource w (Materials.dirs w options) file = Ok source)
  ∧ (∀ name,
       Setup.partials s !! name
       = match lastNamed (fragmentId (Materials.dirs w options)) name
                 (globby w true (Options.materials options)) with
         | Some file =>
             PSource <$> okValue (fragmentSource w (Materials.dirs w options) file)
         | None =>
             match lastNamed (fun file => getName file false) name
                     (globby w true (Sources.layoutIncludes src)) with
             | Some file => Some (PSource (readFileSync d file))
             | None => partials0 !! name
             end
         end).
Proof.
  intros Hs. unfold Setup.setup in Hs.
  apply bind_ok in Hs as (hs & _ & Hs).
  apply bind_ok in Hs as (data & _ & Hs).
  apply bind_ok in Hs as (mats & Hmats & Hs).
  apply bind_ok in Hs as (views & _ & [= <-]). simpl.
  destruct (parseMaterials_registeredExactly _ _ _ _ _ Hmats) as (Hok & Hps & _).
  split; [exact Hok|].
  intros name. rewrite (Hps name).
  destruct (lastNamed (fragmentId (Materials.dirs w options)) name _); [reflexivity|].
  unfold Loaders.parseLayoutIncludes.
  apply (foldl_insert_lookup (fun file => getName file false)
           (fun file => PSource (readFileSync d file))).
Qed.

Lemma setup_partials_witness :
  ∃ s,
    Setup.setup Site.world Site.files Options.defaults Sources.defaults Site.helpers
      ∅ ∅ ∅ = Ok s
    ∧ Setup.partials s !! "button" = Some (PSource "<button>{{button.title}}</button>")
    ∧ Setup.partials s !! "head" = Some (PSource "<head></head>").
Proof.
  destruct (succeeds_ok (Setup.setup Site.world Site.files Options.defaults
              Sources.defaults Site.helpers ∅ ∅ ∅))
    as [s Hs]; [vm_compute; reflexivity|].
  exists s. split; [exact Hs|].
  destruct (setup_partials _ _ _ _ _ _ _ _ _ Hs) as [_ Hname].
  split; [rewrite (Hname "button")|rewrite (Hname "head")]; vm_compute; reflexivity.
Defined.

Lemma helperKey_outcomes (helper : string) :
  Helpers.helperKey helper = Throw "TypeError: cannot read property '2' of null"
  ∨ ∃ key, Helpers.helperKey helper = Ok key.
Proof.
  unfold Helpers.helperKey. repeat case_match; eauto.
Qed.

Lemma registerLocal_throws {H : Type} (require : string → H) (l : list string)
    (helper : string) (hs0 : gmap string H) :
  helper ∈ l →
  Helpers.helperKey helper = Throw "TypeError: cannot read property '2' of null" →
  forEachM (fun hs helper =>
              key ← Helpers.helperKey helper; Ok (<[key := require helper]> hs))
    l hs0 = Throw "TypeError: cannot read property '2' of null".
Proof.
  intros Hin Hthrow. revert hs0.
  induction l as [|x l IH]; intros hs0; [by apply elem_of_nil in Hin|].
  cbn [forEachM].
  destruct (helperKey_outcomes x) as [Hx|[key Hx]]; rewrite Hx; simpl; [reflexivity|].
  apply elem_of_cons in Hin as [->|Hin]; [congruence|by apply IH].
Qed.

(** X25.  One helper file without a dash in its name aborts the whole run
    before anything is read, made or written: all the run does is handle the
    [TypeError] of the failed match. *)
Theorem main_aborts_on_unnamed_helper {H : Type} (w : world) (d : disk) (e : engine)
    (options : Options.t) (src : Sources.t) (h : Helpers.env H)
    (thrown : string → jsError) (helpers0 : gmap string H)
    (materialData0 : gmap string value) (partials0 : gmap string partial)
    (helper : string) :
  helper ∈ Helpers.localHelpers h → dashFree helper = true →
  Main.main w d e options src h thrown helpers0 materialData0 partials0
  = (Main.Did <$> handleError options
                    (thrown "TypeError: cannot read property '2' of null"),
     Ok ()).
Proof.
  intros Hin Hdash. unfold Main.main, Main.body, Setup.setup, Helpers.registerHelpers.
  rewrite (registerLocal_throws _ _ helper helpers0 Hin (helperKey_dashFree _ Hdash)).
  reflexivity.
Qed.

Lemma main_aborts_on_unnamed_helper_witness :
  Main.main Site.world Site.files Fixtures.echoEngine Options.defaults Sources.defaults
    Site.unnamedHelpers Site.thrown ∅ ∅ ∅
  = ([Main.Did (ConsoleError (VStr "TypeError: cannot read property '2' of null")
                  (VStr "at assemble"));
      Main.Did (ProcessExit 1)],
     Ok ()).
Proof.
  apply (main_aborts_on_unnamed_helper Site.world Site.files Fixtures.echoEngine
           Options.defaults Sources.defaults Site.unnamedHelpers Site.thrown ∅ ∅ ∅
           "iterate.js").
  - apply list_elem_of_further, list_elem_of_here.
  - reflexivity.
Defined.
